(** * remarkable-sync: the convert package

    A shallow embedding of [convert.go] (package [convert]): the markdown
    renderer [processMarkdown], the text cleaner [cleanupMarkdownText] and the
    body assembly of [PDFToMarkdown], with the properties of the conversion
    pipeline stated and settled against that code.  It is followed by
    [MarkdownToPDF], the path helpers of the command and, of package
    [remarkable], the command runner with [CleanupExcept].

    Go strings are byte sequences: they are modelled by [string], whose
    characters are the bytes.  Go's [int] is taken to be 64 bits wide and is
    modelled by [Z] with the wrap-around written out ([wrapInt]).  A run-time
    panic is the [None] of an [option]. *)

From Stdlib Require Import ZArith NArith List String Ascii Bool Lia QArith.
Import ListNotations.
Close Scope Q_scope.
Open Scope string_scope.
Set Warnings "-register-all".

(** ** The [strings] and [regexp] functions the package calls *)

Module GoStrings.

(** [strings.asciiSpace]: tab, line feed, vertical tab, form feed, carriage
    return and space. *)
Definition asciiSpace (c : ascii) : bool :=
  let n := N_of_ascii c in
  ((9 <=? n)%N && (n <=? 13)%N) || (n =? 32)%N.

(** The two-byte UTF-8 encodings of white space: U+0085 and U+00A0. *)
Definition space2 (c1 c2 : ascii) : bool :=
  (N_of_ascii c1 =? 194)%N
  && ((N_of_ascii c2 =? 133)%N || (N_of_ascii c2 =? 160)%N).

(** The three-byte UTF-8 encodings of white space: U+1680, U+2000 to U+200A,
    U+2028, U+2029, U+202F, U+205F and U+3000. *)
Definition space3 (c1 c2 c3 : ascii) : bool :=
  let n1 := N_of_ascii c1 in
  let n2 := N_of_ascii c2 in
  let n3 := N_of_ascii c3 in
  ((n1 =? 225)%N && (n2 =? 154)%N && (n3 =? 128)%N)
  || ((n1 =? 226)%N && (n2 =? 128)%N
      && (((128 <=? n3)%N && (n3 <=? 138)%N)
          || (n3 =? 168)%N || (n3 =? 169)%N || (n3 =? 175)%N))
  || ((n1 =? 226)%N && (n2 =? 129)%N && (n3 =? 159)%N)
  || ((n1 =? 227)%N && (n2 =? 128)%N && (n3 =? 128)%N).

(** Dropping the white-space runes at the front of a byte sequence, one rune
    at a time, as [strings.TrimLeftFunc] does with [unicode.IsSpace]: a rune
    that is not white space, or a byte that starts no valid encoding, stops
    the scan.  The two- and three-byte tests are parameters so that the same
    scan serves from the back, on the reversed bytes. *)
Section Strip.
Variable two : ascii -> ascii -> bool.
Variable three : ascii -> ascii -> ascii -> bool.

Fixpoint stripSpaces (s : string) : string :=
  match s with
  | EmptyString => EmptyString
  | String c1 r1 =>
      if asciiSpace c1 then stripSpaces r1
      else
        match r1 with
        | EmptyString => s
        | String c2 r2 =>
            if two c1 c2 then stripSpaces r2
            else
              match r2 with
              | EmptyString => s
              | String c3 r3 => if three c1 c2 c3 then stripSpaces r3 else s
              end
        end
  end.
End Strip.

Fixpoint revAppend (s acc : string) : string :=
  match s with
  | EmptyString => acc
  | String c r => revAppend r (String c acc)
  end.

Definition reverse (s : string) : string := revAppend s EmptyString.

Definition trimLeftSpace (s : string) : string := stripSpaces space2 space3 s.

(** From the back the last byte of an encoding is met first. *)
Definition trimRightSpace (s : string) : string :=
  reverse
    (stripSpaces (fun cn cm => space2 cm cn) (fun cn cm cl => space3 cl cm cn)
       (reverse s)).

(** [strings.TrimSpace]: white space is removed at the front, then at the
    back of what is left. *)
Definition TrimSpace (s : string) : string := trimRightSpace (trimLeftSpace s).

(** [strings.HasPrefix]. *)
Fixpoint HasPrefix (s prefix : string) {struct prefix} : bool :=
  match prefix with
  | EmptyString => true
  | String p ps =>
      match s with
      | EmptyString => false
      | String c cs => Ascii.eqb c p && HasPrefix cs ps
      end
  end.

(** [strings.Count] for a separator of one byte. *)
Fixpoint Count (s : string) (sep : ascii) : nat :=
  match s with
  | EmptyString => 0
  | String c r => (if Ascii.eqb c sep then 1 else 0) + Count r sep
  end.

(** [strings.TrimLeft] for a cutset of one byte. *)
Fixpoint TrimLeft (s : string) (cut : ascii) : string :=
  match s with
  | EmptyString => EmptyString
  | String c r => if Ascii.eqb c cut then TrimLeft r cut else s
  end.

Fixpoint repeatByte (c : ascii) (n : nat) : string :=
  match n with
  | O => EmptyString
  | S n' => String c (repeatByte c n')
  end.

(** [strings.Repeat] of a one-byte string: a negative count panics.  (The
    length of the result cannot overflow for a string of one byte; memory is
    not bounded here.) *)
Definition Repeat (c : ascii) (count : Z) : option string :=
  if (count <? 0)%Z then None else Some (repeatByte c (Z.to_nat count)).

(** The slice expression [s[n:]]. *)
Fixpoint sliceFrom (n : nat) (s : string) : string :=
  match n, s with
  | O, _ => s
  | S n', String _ r => sliceFrom n' r
  | S _, EmptyString => EmptyString
  end.

(** [strings.Split] for a separator of one byte: never an empty list. *)
Fixpoint Split (s : string) (sep : ascii) : list string :=
  match s with
  | EmptyString => [EmptyString]
  | String c r =>
      if Ascii.eqb c sep then EmptyString :: Split r sep
      else
        match Split r sep with
        | [] => [String c EmptyString]
        | h :: t => String c h :: t
        end
  end.

(** [strings.Join] for a separator of one byte. *)
Fixpoint Join (elems : list string) (sep : ascii) : string :=
  match elems with
  | [] => EmptyString
  | [x] => x
  | x :: rest => x ++ String sep (Join rest sep)
  end.

(** Cutting at the first occurrence of a byte. *)
Fixpoint cut (s : string) (sep : ascii) : option (string * string) :=
  match s with
  | EmptyString => None
  | String c r =>
      if Ascii.eqb c sep then Some (EmptyString, r)
      else
        match cut r sep with
        | Some (a, b) => Some (String c a, b)
        | None => None
        end
  end.

(** [strings.SplitN(s, sep, 2)] for a separator of one byte. *)
Definition SplitN2 (s : string) (sep : ascii) : list string :=
  match cut s sep with
  | Some (a, b) => [a; b]
  | None => [s]
  end.

(** The regular expression [^\d+\.\s]: [\d] is an ASCII digit and [\s] is one
    of tab, line feed, form feed, carriage return and space. *)
Definition isDigit (c : ascii) : bool :=
  let n := N_of_ascii c in ((48 <=? n)%N && (n <=? 57)%N).

Definition reSpace (c : ascii) : bool :=
  let n := N_of_ascii c in
  (n =? 9)%N || (n =? 10)%N || (n =? 12)%N || (n =? 13)%N || (n =? 32)%N.

Fixpoint skipDigits (s : string) : string :=
  match s with
  | EmptyString => EmptyString
  | String c r => if isDigit c then skipDigits r else s
  end.

Definition matchNumbered (s : string) : bool :=
  match s with
  | EmptyString => false
  | String c r =>
      isDigit c
      && match skipDigits r with
         | String d (String w _) => Ascii.eqb d "." && reSpace w
         | _ => false
         end
  end.

End GoStrings.
Import GoStrings.

(** ** Machine integers *)

(** Go's [int], 64 bits wide, two's complement. *)
Definition wrapInt (z : Z) : Z := ((z + 2 ^ 63) mod 2 ^ 64 - 2 ^ 63)%Z.

Definition inInt (z : Z) : Prop := (- 2 ^ 63 <= z < 2 ^ 63)%Z.

(** ** Options *)

Record PDFOptions := {
  Margins : Q;
  FontSize : Q;
  MainFont : string;
  MonoFont : string;
  PageSize : string;
  ColorLinks : bool;
  TOC : bool;
  Highlight : bool
}.

Definition DefaultPDFOptions : PDFOptions :=
  {| Margins := 20; FontSize := 11; MainFont := "Arial"; MonoFont := "Courier";
     PageSize := "A4"; ColorLinks := true; TOC := true; Highlight := true |}.

Record MarkdownOptions := {
  HeaderLevelAdjust : Z;
  AddFrontmatter : bool;
  CleanupText : bool
}.

Definition DefaultMarkdownOptions : MarkdownOptions :=
  {| HeaderLevelAdjust := 1; AddFrontmatter := true; CleanupText := true |}.

(** ** [cleanupMarkdownText] *)

Definition newline : ascii := "010"%char.
Definition fence : string := "```".

(** The [switch] of the loop body, run on a line outside a code block. *)
Definition rewriteLine (mdOptions : MarkdownOptions) (line : string)
  : option string :=
  if HasPrefix line "#" then
    let headerLevel :=
      wrapInt (Z.of_nat (Count line "#") + HeaderLevelAdjust mdOptions) in
    match Repeat "#" headerLevel with
    | None => None
    | Some hashes =>
        Some (hashes ++ " " ++ TrimSpace (TrimLeft line "#"))
    end
  else if HasPrefix line "* " || HasPrefix line "- " then
    Some ("- " ++ TrimSpace (sliceFrom 2 line))
  else if matchNumbered line then
    match SplitN2 line "." with
    | [p0; p1] => Some (p0 ++ "." ++ TrimSpace p1)
    | _ => Some line
    end
  else Some line.

(** The variables of the loop: the lines appended so far and the fence flag. *)
Record LoopState := {
  result : list string;
  inCodeBlock : bool
}.

Definition initState : LoopState := {| result := []; inCodeBlock := false |}.

(** [len(result) > 0] and the last element of [result] is the empty string. *)
Definition lastIsEmpty (res : list string) : bool :=
  match rev res with
  | [] => false
  | l :: _ => String.eqb l EmptyString
  end.

Definition push (st : LoopState) (line : string) (flag : bool) : LoopState :=
  {| result := result st ++ [line]; inCodeBlock := flag |}.

(** One iteration of the loop over the lines. *)
Definition step (mdOptions : MarkdownOptions) (st : LoopState) (raw : string)
  : option LoopState :=
  let line := TrimSpace raw in
  if String.eqb line EmptyString && lastIsEmpty (result st) then Some st
  else if HasPrefix line fence then Some (push st line (negb (inCodeBlock st)))
  else if negb (inCodeBlock st) then
    match rewriteLine mdOptions line with
    | None => None
    | Some line' => Some (push st line' (inCodeBlock st))
    end
  else Some (push st line (inCodeBlock st)).

Fixpoint cleanupLoop (mdOptions : MarkdownOptions) (lines : list string)
  (st : LoopState) : option LoopState :=
  match lines with
  | [] => Some st
  | raw :: rest =>
      match step mdOptions st raw with
      | None => None
      | Some st' => cleanupLoop mdOptions rest st'
      end
  end.

Definition cleanupMarkdownText (mdOptions : MarkdownOptions) (text : string)
  : option string :=
  match cleanupLoop mdOptions (Split text newline) initState with
  | None => None
  | Some st => Some (Join (result st) newline)
  end.

(** ** [PDFToMarkdown] *)

Inductive error := Errorf (msg : string).

(** What the run meets outside the package: the text the PDF reader extracts
    (or the message of the first of opening, extracting and reading that
    fails), the day [time.Now] formats, and whether the file can be written. *)
Record PdfEnv := {
  plainText : string + string;
  today : string;
  writable : bool
}.

Inductive Outcome :=
| Panic
| Failed (err : error)
| Written (mdPath content : string).

Definition nl : string := String newline EmptyString.

Definition frontmatter (title date : string) : string :=
  "---" ++ nl ++ "title: " ++ title ++ nl ++ "source: remarkable" ++ nl ++
  "date: " ++ date ++ nl ++ "---" ++ nl ++ nl.

(** [title] is the base name of the PDF without its extension and [mdPath]
    the path joined from the target directory and [title ++ ".md"]. *)
Definition PDFToMarkdown (mdOptions : MarkdownOptions) (env : PdfEnv)
  (title mdPath : string) : Outcome :=
  match plainText env with
  | inl msg => Failed (Errorf msg)
  | inr extractedText =>
      let content :=
        if AddFrontmatter mdOptions then frontmatter title (today env)
        else EmptyString in
      let cleaned :=
        if CleanupText mdOptions
        then cleanupMarkdownText mdOptions extractedText
        else Some extractedText in
      match cleaned with
      | None => Panic
      | Some extractedText' =>
          if writable env then Written mdPath (content ++ extractedText')
          else Failed (Errorf "failed to write markdown")
      end
  end.

(** ** [processMarkdown] *)

(** The node types of the markdown library's syntax tree that the walk
    distinguishes; every other type is a container or a leaf it passes by. *)
Inductive Node :=
| Document (children : list Node)
| Heading (Level : Z) (children : list Node)
| Paragraph (children : list Node)
| List_ (children : list Node)
| ListItem (children : list Node)
| CodeBlock (Literal : string)
| Link (children : list Node)
| Text (Literal : string)
| OtherContainer (children : list Node)
| OtherLeaf.

(** The calls made on the PDF handle, in order.  A [float64] argument is
    modelled by the rational it denotes; the only arithmetic on them here is
    [16 - float64(n.Level)], which is exact. *)
Inductive PdfOp :=
| OpSetFont (family style : string) (size : Q)
| OpLn (h : Q)
| OpMultiCell (w h : Q) (txtStr borderStr alignStr : string) (fill : bool)
| OpSetFillColor (r g b : Z)
| OpSetTextColor (r g b : Z)
| OpWrite (h : Q) (txt : string).

(** The handle and the captured variable of the walk's closure. *)
Record RenderState := {
  pdf : list PdfOp;
  inCode : bool
}.

Definition call (op : PdfOp) (st : RenderState) : RenderState :=
  {| pdf := pdf st ++ [op]; inCode := inCode st |}.

Definition setInCode (b : bool) (st : RenderState) : RenderState :=
  {| pdf := pdf st; inCode := b |}.

(** The string literal of the [ListItem] case, byte for byte as the source
    file holds it. *)
Definition bullet : string :=
  String "195" (String "162" (String "226" (String "130" (String "172"
    (String "194" (String "162" " ")))))).

Section Render.
Variable options : PDFOptions.

(** The function passed to [ast.WalkFunc]; it always returns [GoToNext]. *)
Definition visit (node : Node) (entering : bool) (st : RenderState)
  : RenderState :=
  if negb entering then st
  else
    match node with
    | Heading Level _ =>
        call (OpLn 5)
          (call (OpSetFont (MainFont options) "B" (16 - inject_Z Level)) st)
    | Text Literal =>
        let st1 :=
          if inCode st
          then call (OpSetFont (MonoFont options) EmptyString (FontSize options)) st
          else st in
        let st2 :=
          call (OpMultiCell 0 5 Literal EmptyString EmptyString
                    (inCode st1 && Highlight options)) st1 in
        if inCode st2
        then call (OpSetFont (MainFont options) EmptyString (FontSize options)) st2
        else st2
    | CodeBlock Literal =>
        let st1 := setInCode true st in
        let st2 :=
          call (OpSetFont (MonoFont options) EmptyString (FontSize options)) st1 in
        let st3 :=
          if Highlight options then call (OpSetFillColor 245 245 245) st2
          else st2 in
        let st4 :=
      call (OpMultiCell 0 5 Literal EmptyString EmptyString (Highlight options))
        st3 in
        let st5 :=
          call (OpSetFont (MainFont options) EmptyString (FontSize options)) st4 in
        setInCode false st5
    | Link _ =>
        if ColorLinks options then call (OpSetTextColor 0 0 255) st else st
    | Paragraph _ => call (OpLn 5) st
    | List_ _ => call (OpLn 3) st
    | ListItem _ => call (OpWrite 5 bullet) st
    | _ => st
    end.

(** [ast.Walk]: the node is visited on entering, then its children in
    order, then, when it is a container, on leaving. *)
Fixpoint walk (node : Node) (st : RenderState) : RenderState :=
  let walkAll :=
    fix walkAll (nodes : list Node) (st : RenderState) : RenderState :=
      match nodes with
      | [] => st
      | n :: rest => walkAll rest (walk n st)
      end in
  let inside children st :=
    visit node false (walkAll children (visit node true st)) in
  match node with
  | Document children => inside children st
  | Heading _ children => inside children st
  | Paragraph children => inside children st
  | List_ children => inside children st
  | ListItem children => inside children st
  | Link children => inside children st
  | OtherContainer children => inside children st
  | CodeBlock _ | Text _ | OtherLeaf => visit node true st
  end.

(** The parser of the markdown library: it returns a tree and no error. *)
Variable Parse : string -> Node.

Definition processMarkdown (handle : list PdfOp) (content : string)
  : list PdfOp * option error :=
  let doc := Parse content in
  let st0 :=
    call (OpSetFont (MainFont options) EmptyString (FontSize options))
      {| pdf := handle; inCode := false |} in
  (pdf (walk doc st0), None).
End Render.

(** The text colour in force after a sequence of calls on a handle whose
    text colour was [c]. *)
Definition Color : Type := (Z * Z * Z)%type.
Definition black : Color := (0, 0, 0)%Z.
Definition linkBlue : Color := (0, 0, 255)%Z.

Fixpoint textColor (c : Color) (ops : list PdfOp) : Color :=
  match ops with
  | [] => c
  | OpSetTextColor r g b :: rest => textColor (r, g, b) rest
  | _ :: rest => textColor c rest
  end.

(** The text written, each piece with the text colour it is written in. *)
Fixpoint drawn (c : Color) (ops : list PdfOp) : list (string * Color) :=
  match ops with
  | [] => []
  | OpSetTextColor r g b :: rest => drawn (r, g, b) rest
  | OpMultiCell _ _ txt _ _ _ :: rest => (txt, c) :: drawn c rest
  | OpWrite _ txt :: rest => (txt, c) :: drawn c rest
  | _ :: rest => drawn c rest
  end.

(** ** Paths and file types *)

(** The [path/filepath] and [strings] functions the path handling calls, on a
    system whose path separator is the slash. *)
Module GoPaths.

(** [os.IsPathSeparator]. *)
Definition isPathSeparator (c : ascii) : bool := Ascii.eqb c "/".

(** [filepath.Ext]: the path is scanned from its end, up to a separator, for
    a dot; [rest] is what is left of the reversed path and [ext] what has been
    passed. *)
Fixpoint extScan (rest ext : string) : string :=
  match rest with
  | EmptyString => EmptyString
  | String c rest' =>
      if isPathSeparator c then EmptyString
      else if Ascii.eqb c "." then String c ext
      else extScan rest' (String c ext)
  end.

Definition Ext (path : string) : string := extScan (reverse path) EmptyString.

(** [filepath.Base]: trailing separators are dropped, then the last element
    is taken; both scans run on the reversed path. *)
Fixpoint dropSeparators (rest : string) : string :=
  match rest with
  | EmptyString => EmptyString
  | String c rest' => if isPathSeparator c then dropSeparators rest' else rest
  end.

Fixpoint lastElement (rest elem : string) : string :=
  match rest with
  | EmptyString => elem
  | String c rest' =>
      if isPathSeparator c then elem else lastElement rest' (String c elem)
  end.

Definition Base (path : string) : string :=
  match path with
  | EmptyString => "."
  | _ =>
      match lastElement (dropSeparators (reverse path)) EmptyString with
      | EmptyString => "/"
      | elem => elem
      end
  end.

(** [strings.HasSuffix] and [strings.TrimSuffix]. *)
Definition HasSuffix (s suffix : string) : bool :=
  HasPrefix (reverse s) (reverse suffix).

Definition TrimSuffix (s suffix : string) : string :=
  if HasSuffix s suffix
  then reverse (sliceFrom (String.length suffix) (reverse s))
  else s.

(** [strings.ToLower].  A string of ASCII bytes is lowered byte by byte; one
    with a byte above 127 goes through [strings.Map(unicode.ToLower, s)],
    which is taken as given. *)
Fixpoint isASCII (s : string) : bool :=
  match s with
  | EmptyString => true
  | String c r => (N_of_ascii c <? 128)%N && isASCII r
  end.

Definition lowerByte (c : ascii) : ascii :=
  let n := N_of_ascii c in
  if (65 <=? n)%N && (n <=? 90)%N then ascii_of_N (n + 32) else c.

Fixpoint lowerASCII (s : string) : string :=
  match s with
  | EmptyString => EmptyString
  | String c r => String (lowerByte c) (lowerASCII r)
  end.

Section Lower.
Variable unicodeToLower : string -> string.

Definition ToLower (s : string) : string :=
  if isASCII s then lowerASCII s else unicodeToLower s.
End Lower.

End GoPaths.
Import GoPaths.

(** ** [isSupported] and the file type of [UploadFile] *)

Inductive FileType := PDF | EPUB.

Definition fileTypeString (t : FileType) : string :=
  match t with PDF => "pdf" | EPUB => "epub" end.

Section FileTypes.
Variable unicodeToLower : string -> string.

(** [isSupported] of the command. *)
Definition isSupported (path : string) : bool :=
  let ext := ToLower unicodeToLower (Ext path) in
  String.eqb ext ".pdf" || String.eqb ext ".epub".

(** The file type [UploadFile] gives a local path. *)
Definition uploadFileType (localPath : string) : FileType :=
  if HasSuffix (ToLower unicodeToLower localPath) ".epub" then EPUB else PDF.
End FileTypes.

(** ** [MarkdownToPDF] *)

(** The calls made on the PDF handle of one conversion, from its creation to
    its output; the calls of [processMarkdown] and its siblings are those of
    [PdfOp]. *)
Inductive PageCall :=
| CallNew (orientationStr unitStr sizeStr fontDirStr : string)
| CallSetMargins (left top right : Q)
| CallAddPage
| CallCell (w h : Q) (txtStr : string)
| CallOp (op : PdfOp)
| CallOutputFileAndClose (fileStr : string).

Definition setupPDF (options : PDFOptions) : list PageCall :=
  [CallNew "P" "mm" (PageSize options) EmptyString;
   CallSetMargins (Margins options) (Margins options) (Margins options);
   CallAddPage].

Section Convert.
Variable options : PDFOptions.
Variable TempDir : string.
(** The parser of the markdown library, whether [yaml.Unmarshal] accepts a
    text, [filepath.Join] of two elements, the sum of two [float64] and
    [strings.Map(unicode.ToLower, s)]. *)
Variable Parse : string -> Node.
Variable yamlValid : string -> bool.
Variable joinPath : string -> string -> string.
Variable addFloat : Q -> Q -> Q.
Variable unicodeToLower : string -> string.

Definition processYAML (handle : list PdfOp) (content : string)
  : list PdfOp * option error :=
  if yamlValid content then
    ((handle
      ++ [OpSetFont (MonoFont options) EmptyString (FontSize options);
          OpMultiCell 0 5 ("```yaml" ++ nl ++ content ++ nl ++ "```")
            EmptyString EmptyString false])%list,
     None)
  else (handle, Some (Errorf "failed to parse YAML")).

Definition processConfig (handle : list PdfOp) (content : string)
  : list PdfOp * option error :=
  ((handle
    ++ [OpSetFont (MonoFont options) EmptyString (FontSize options);
        OpMultiCell 0 5 content EmptyString EmptyString false])%list,
   None).

Definition isYAMLExt (ext : string) : bool :=
  String.eqb ext ".yml" || String.eqb ext ".yaml".

Definition isConfigExt (ext : string) : bool :=
  String.eqb ext ".conf" || String.eqb ext ".ini" || String.eqb ext ".config".

(** [readFile] is what [os.ReadFile] returns for [mdPath] ([None] when it
    fails) and [outputOk] whether [OutputFileAndClose] succeeds.  The result
    is the calls made on the handle and the path of the PDF or the error. *)
Definition MarkdownToPDF (readFile : option string) (outputOk : bool)
  (mdPath : string) : list PageCall * (error + string) :=
  let title := TrimSuffix (Base mdPath) (Ext mdPath) in
  let pdfPath := joinPath TempDir (title ++ ".pdf") in
  match readFile with
  | None => ([], inl (Errorf "failed to read markdown"))
  | Some content =>
      let pdf :=
        (setupPDF options
         ++ [CallOp (OpSetFont (MainFont options) "B"
                       (addFloat (FontSize options) 4));
             CallCell 0 10 title;
             CallOp (OpLn 15)])%list in
      let ext := ToLower unicodeToLower (Ext mdPath) in
      let processed :=
        if isYAMLExt ext then processYAML [] content
        else if isConfigExt ext then processConfig [] content
        else processMarkdown options Parse [] content in
      let pdf' := (pdf ++ map CallOp (fst processed))%list in
      match snd processed with
      | Some processErr => (pdf', inl processErr)
      | None =>
          ((pdf' ++ [CallOutputFileAndClose pdfPath])%list,
           if outputOk then inr pdfPath
           else inl (Errorf "failed to create pdf"))
      end
  end.
End Convert.

(** ** The tablet: [RunCommand], [RemoveFile], [CleanupExcept] and the
       cleanup command *)

(** What a command sent over the connection comes to: no session, a command
    that fails, or its combined output. *)
Inductive SessionResult :=
| NoSession
| CommandFailed
| CombinedOutput (output : string).

Section Device.
(** The tablet behind the connection with what a command does to it,
    [regexp.Compile] with the match of a compiled expression, and the
    directory of the client. *)
Context {Device Regexp : Type}.
Variable session : Device -> string -> Device * SessionResult.
Variable Compile : string -> option Regexp.
Variable reMatchString : Regexp -> string -> bool.
Variable Dir : string.

Definition RunCommand (device : Device) (cmd : string)
  : Device * (error + string) :=
  match session device cmd with
  | (device', NoSession) => (device', inl (Errorf "failed to create session"))
  | (device', CommandFailed) => (device', inl (Errorf "command failed"))
  | (device', CombinedOutput output) => (device', inr output)
  end.

(** [regexp.MatchString]: the expression is compiled at each call, and a
    failure to compile is returned with [false]. *)
Definition MatchString (pattern s : string) : bool * option error :=
  match Compile pattern with
  | None => (false, Some (Errorf "error parsing regexp"))
  | Some re => (reMatchString re s, None)
  end.

Definition RemoveFile (device : Device) (uuid : string)
  : Device * option error :=
  match RunCommand device ("rm -rf " ++ Dir ++ "/" ++ uuid ++ "*") with
  | (device', inl _) => (device', Some (Errorf "failed to remove file"))
  | (device', inr _) => (device', None)
  end.

(** The loop of [CleanupExcept] over the listed paths.  The map of the
    preserved documents is written and never read: it is left out. *)
Fixpoint cleanupPaths (pattern : string) (paths : list string)
  (device : Device) : Device * option error :=
  match paths with
  | [] => (device, None)
  | metadataPath :: rest =>
      match RunCommand device ("cat " ++ metadataPath) with
      | (device1, inl _) => cleanupPaths pattern rest device1
      | (device1, inr content) =>
          if fst (MatchString pattern content)
          then cleanupPaths pattern rest device1
          else
            let uuid := TrimSuffix (Base metadataPath) ".metadata" in
            match RemoveFile device1 uuid with
            | (device2, Some _) =>
                (device2, Some (Errorf ("failed to remove " ++ uuid)))
            | (device2, None) => cleanupPaths pattern rest device2
            end
      end
  end.

Definition CleanupExcept (pattern : string) (device : Device)
  : Device * option error :=
  match RunCommand device ("ls " ++ Dir ++ "/*.metadata") with
  | (device', inl _) => (device', Some (Errorf "failed to list files"))
  | (device', inr output) =>
      cleanupPaths pattern (Split (TrimSpace output) newline) device'
  end.

(** [cleanupHandler] of the command.  [connected] is the tablet [NewClient]
    reaches, if any; the result is the tablet as it is left and the error.
    The messages of [log] are not modelled. *)
Definition cleanupHandler (restartXochitl : bool) (purgeExceptPattern : string)
  (connected : option Device) : option Device * option error :=
  if String.eqb purgeExceptPattern EmptyString
  then (None, Some (Errorf "--except pattern is required"))
  else
    match connected with
    | None => (None, Some (Errorf "failed to connect to reMarkable"))
    | Some device =>
        let stop :=
          if restartXochitl then
            match RunCommand device "systemctl stop xochitl" with
            | (device', inl _) => (device', Some (Errorf "failed to stop xochitl"))
            | (device', inr _) => (device', None)
            end
          else (device, None) in
        match stop with
        | (device1, Some err) => (Some device1, Some err)
        | (device1, None) =>
            match CleanupExcept purgeExceptPattern device1 with
            | (device2, Some _) => (Some device2, Some (Errorf "cleanup failed"))
            | (device2, None) =>
                if restartXochitl then
                  match RunCommand device2 "systemctl restart xochitl" with
                  | (device3, inl _) =>
                      (Some device3, Some (Errorf "failed to restart xochitl"))
                  | (device3, inr _) => (Some device3, None)
                  end
                else (Some device2, None)
            end
        end
    end.
End Device.

(** * Definitions for the statements *)

(** *** For the rendering *)

Fixpoint walkList (options : PDFOptions) (nodes : list Node) (st : RenderState)
  : RenderState :=
  match nodes with
  | [] => st
  | n :: rest => walkList options rest (walk options n st)
  end.

Definition childrenOf (node : Node) : list Node :=
  match node with
  | Document cs | Heading _ cs | Paragraph cs | List_ cs | ListItem cs
  | Link cs | OtherContainer cs => cs
  | CodeBlock _ | Text _ | OtherLeaf => []
  end.

Definition isContainer (node : Node) : bool :=
  match node with
  | CodeBlock _ | Text _ | OtherLeaf => false
  | _ => true
  end.

(** A call that leaves the text colour alone or sets the link colour. *)
Definition keepsLinkColor (op : PdfOp) : Prop :=
  match op with
  | OpSetTextColor r g b => (r, g, b) = linkBlue
  | _ => True
  end.

Definition appends (st st' : RenderState) : Prop :=
  exists ops, pdf st' = (pdf st ++ ops)%list /\ Forall keepsLinkColor ops.

(** What entering a link and entering a block call on the handle: the link
    sets its colour when [ColorLinks] is on, and no block sets a text
    colour. *)
Definition entersWithoutReset (options : PDFOptions) : Prop :=
  (forall children st,
     pdf (visit options (Link children) true st)
     = if ColorLinks options then (pdf st ++ [OpSetTextColor 0 0 255])%list
       else pdf st)
  /\ (forall children st,
        pdf (visit options (Paragraph children) true st)
        = (pdf st ++ [OpLn 5])%list)
  /\ (forall children st,
        pdf (visit options (ListItem children) true st)
        = (pdf st ++ [OpWrite 5 bullet])%list)
  /\ (forall Level children st,
        pdf (visit options (Heading Level children) true st)
        = (pdf st ++ [OpSetFont (MainFont options) "B" (16 - inject_Z Level);
                      OpLn 5])%list).

(** The tree of a paragraph that holds a link, followed by a paragraph of
    plain text. *)
Definition linkThenText : Node :=
  Document [Paragraph [Link [Text "a"]]; Paragraph [Text "b"]].

(** *** For the cleanup *)

(** The number of bytes [c] a string starts with. *)
Fixpoint leading (s : string) (c : ascii) : nat :=
  match s with
  | EmptyString => 0
  | String x r => if Ascii.eqb x c then S (leading r c) else 0
  end.

Definition clamp (lo hi x : Z) : Z := Z.max lo (Z.min hi x).

Definition defaultsWith (k : Z) : MarkdownOptions :=
  {| HeaderLevelAdjust := k; AddFrontmatter := true; CleanupText := true |}.

Definition noShift : MarkdownOptions :=
  {| HeaderLevelAdjust := 0; AddFrontmatter := true; CleanupText := true |}.

Definition rawOptions : MarkdownOptions :=
  {| HeaderLevelAdjust := 1; AddFrontmatter := false; CleanupText := false |}.

Definition sampleEnv (text : string) : PdfEnv :=
  {| plainText := inr text; today := "2024-05-01"; writable := true |}.

Definition fencedSample : string :=
  "```" ++ nl ++ "  x  " ++ nl ++ nl ++ nl ++ "# y" ++ nl ++ "```".

Definition mixedSample : string :=
  "#Title" ++ nl ++ nl ++ "  " ++ nl ++ "* one" ++ nl ++ "2.  two" ++ nl ++
  "```" ++ nl ++ "# c # d" ++ nl ++ "```" ++ nl ++ "##".

(** What an iteration does with a line inside a fence: the trimmed line is
    appended, unless it is empty and follows an empty line. *)
Definition keepInside (st : LoopState) (raw : string) : LoopState :=
  let line := TrimSpace raw in
  if String.eqb line EmptyString && lastIsEmpty (result st) then st
  else push st line true.

(** No two neighbours of the list are both the empty line. *)
Fixpoint noBlankPair (ls : list string) : bool :=
  match ls with
  | [] => true
  | a :: rest =>
      match rest with
      | [] => true
      | b :: _ =>
          negb (String.eqb a EmptyString && String.eqb b EmptyString)
          && noBlankPair rest
      end
  end.








(** A line that does not start with [#]; or, when the header levels are
    adjusted by [k] = 0, a heading whose [#] are all in front. *)
Definition plainHeading (k : Z) (line : string) : bool :=
  negb (HasPrefix line "#")
  || ((k =? 0)%Z && Nat.eqb (Count line "#") (leading line "#")).

(** Every line outside a code block is plain; [flag] is the fence flag before
    the first line. *)
Fixpoint headingsPlain (k : Z) (flag : bool) (lines : list string) : bool :=
  match lines with
  | [] => true
  | raw :: rest =>
      let line := TrimSpace raw in
      if HasPrefix line fence then headingsPlain k (negb flag) rest
      else (flag || plainHeading k line) && headingsPlain k flag rest
  end.

Definition nextFlag (flag : bool) (raw : string) : bool :=
  if HasPrefix (TrimSpace raw) fence then negb flag else flag.

Fixpoint allDigits (s : string) : bool :=
  match s with
  | EmptyString => true
  | String c r => isDigit c && allDigits r
  end.

(** *** For the trimming *)

(** A byte of a multi-byte encoding. *)
Definition high (c : ascii) : bool := (128 <=? N_of_ascii c)%N.

Section Runes.
Variable two : ascii -> ascii -> bool.
Variable three : ascii -> ascii -> ascii -> bool.

(** The string starts with a white-space rune. *)
Definition startsSpace (s : string) : bool :=
  match s with
  | EmptyString => false
  | String c1 r1 =>
      asciiSpace c1
      || match r1 with
         | EmptyString => false
         | String c2 r2 =>
             two c1 c2
             || match r2 with
                | EmptyString => false
                | String c3 _ => three c1 c2 c3
                end
         end
  end.

(** The string is one white-space rune. *)
Definition isRune (w : string) : bool :=
  match w with
  | String c1 EmptyString => asciiSpace c1
  | String c1 (String c2 EmptyString) => two c1 c2
  | String c1 (String c2 (String c3 EmptyString)) => three c1 c2 c3
  | _ => false
  end.
End Runes.

Definition space2R (cn cm : ascii) : bool := space2 cm cn.
Definition space3R (cn cm cl : ascii) : bool := space3 cl cm cn.

(** The string starts, or ends, with a white-space rune. *)
Definition startsWS (s : string) : bool := startsSpace space2 space3 s.
Definition endsWS (s : string) : bool := startsSpace space2R space3R (reverse s).

Definition trimmed (s : string) : Prop := startsWS s = false /\ endsWS s = false.

(** *** For the further properties of the cleanup *)

(** A line on which the heading case panics: it starts with [#] and its count
    of [#] plus the adjustment [k] is negative. *)
Definition negativeHeading (k : Z) (line : string) : bool :=
  HasPrefix line "#" && (wrapInt (Z.of_nat (Count line "#") + k) <? 0)%Z.

(** Some line outside a code block is a [negativeHeading]; [flag] is the fence
    flag before the first line. *)
Fixpoint hasNegativeHeading (k : Z) (flag : bool) (lines : list string) : bool :=
  match lines with
  | [] => false
  | raw :: rest =>
      let line := TrimSpace raw in
      if HasPrefix line fence then hasNegativeHeading k (negb flag) rest
      else (negb flag && negativeHeading k line) || hasNegativeHeading k flag rest
  end.

(** No line outside a code block starts with [#]. *)
Fixpoint headingFree (flag : bool) (lines : list string) : bool :=
  match lines with
  | [] => true
  | raw :: rest =>
      let line := TrimSpace raw in
      if HasPrefix line fence then headingFree (negb flag) rest
      else (flag || negb (HasPrefix line "#")) && headingFree flag rest
  end.

(** The number of fence lines. *)
Definition fenceCount (lines : list string) : nat :=
  List.length (filter (fun raw => HasPrefix (TrimSpace raw) fence) lines).

(** *** For the further properties of the rendering *)

(** The calls [visit] makes on entering a node while the captured flag is
    off. *)
Definition enteringCalls (options : PDFOptions) (node : Node) : list PdfOp :=
  match node with
  | Heading Level _ =>
      [OpSetFont (MainFont options) "B" (16 - inject_Z Level); OpLn 5]
  | Text Literal => [OpMultiCell 0 5 Literal EmptyString EmptyString false]
  | CodeBlock Literal =>
      (OpSetFont (MonoFont options) EmptyString (FontSize options)
       :: (if Highlight options then [OpSetFillColor 245 245 245] else [])
       ++ [OpMultiCell 0 5 Literal EmptyString EmptyString (Highlight options);
           OpSetFont (MainFont options) EmptyString (FontSize options)])%list
  | Link _ => if ColorLinks options then [OpSetTextColor 0 0 255] else []
  | Paragraph _ => [OpLn 5]
  | List_ _ => [OpLn 3]
  | ListItem _ => [OpWrite 5 bullet]
  | _ => []
  end.

(** The calls of a pass over the tree in document order that keeps no
    state. *)
Fixpoint rendered (options : PDFOptions) (node : Node) : list PdfOp :=
  (enteringCalls options node
   ++ match node with
      | Document cs | Heading _ cs | Paragraph cs | List_ cs | ListItem cs
      | Link cs | OtherContainer cs => flat_map (rendered options) cs
      | CodeBlock _ | Text _ | OtherLeaf => []
      end)%list.

(** The texts of the tree in document order: the literal of every [Text] and
    [CodeBlock], and the bullet of every [ListItem]. *)
Fixpoint textsOf (node : Node) : list string :=
  match node with
  | Text Literal | CodeBlock Literal => [Literal]
  | ListItem cs => bullet :: flat_map textsOf cs
  | Document cs | Heading _ cs | Paragraph cs | List_ cs
  | Link cs | OtherContainer cs => flat_map textsOf cs
  | OtherLeaf => []
  end.

(** The literals of the code blocks of the tree, in document order. *)
Fixpoint codeBlocksOf (node : Node) : list string :=
  match node with
  | CodeBlock Literal => [Literal]
  | Document cs | Heading _ cs | Paragraph cs | List_ cs | ListItem cs
  | Link cs | OtherContainer cs => flat_map codeBlocksOf cs
  | Text _ | OtherLeaf => []
  end.

(** The texts of the cells drawn with the fill on. *)
Fixpoint filledCells (ops : list PdfOp) : list string :=
  match ops with
  | [] => []
  | OpMultiCell _ _ txt _ _ true :: rest => txt :: filledCells rest
  | _ :: rest => filledCells rest
  end.

(** The tree holds no link. *)
Fixpoint linkFree (node : Node) : bool :=
  match node with
  | Link _ => false
  | Document cs | Heading _ cs | Paragraph cs | List_ cs | ListItem cs
  | OtherContainer cs => forallb linkFree cs
  | CodeBlock _ | Text _ | OtherLeaf => true
  end.

(** The tree holds no heading and no code block: the nodes that set a font. *)
Fixpoint fontFree (node : Node) : bool :=
  match node with
  | Heading _ _ | CodeBlock _ => false
  | Document cs | Paragraph cs | List_ cs | ListItem cs | Link cs
  | OtherContainer cs => forallb fontFree cs
  | Text _ | OtherLeaf => true
  end.

(** A font: family, style and size. *)
Definition Font : Type := (string * string * Q)%type.

(** The texts written, each with the font it is written in, on a handle whose
    font was [f]. *)
Fixpoint written (f : Font) (ops : list PdfOp) : list (string * Font) :=
  match ops with
  | [] => []
  | OpSetFont family style size :: rest => written (family, style, size) rest
  | OpMultiCell _ _ txt _ _ _ :: rest => (txt, f) :: written f rest
  | OpWrite _ txt :: rest => (txt, f) :: written f rest
  | _ :: rest => written f rest
  end.

(** The font in force after a sequence of calls on a handle whose font was
    [f]. *)
Fixpoint fontAfter (f : Font) (ops : list PdfOp) : Font :=
  match ops with
  | [] => f
  | OpSetFont family style size :: rest => fontAfter (family, style, size) rest
  | _ :: rest => fontAfter f rest
  end.

(** A call that is no [SetTextColor]. *)
Definition setsNoColor (op : PdfOp) : Prop :=
  match op with OpSetTextColor _ _ _ => False | _ => True end.

(** *** For the further properties of the conversion to PDF *)

(** The files the calls write: the argument of every [OutputFileAndClose]. *)
Fixpoint outputs (calls : list PageCall) : list string :=
  match calls with
  | [] => []
  | CallOutputFileAndClose fileStr :: rest => fileStr :: outputs rest
  | _ :: rest => outputs rest
  end.

(** *** For the further properties of the cleanup *)

(** A command with what it came to. *)
Definition Sent : Type := string * SessionResult.

(** A tablet that keeps the commands it was sent, in order. *)
Definition recording {Device : Type}
  (session : Device -> string -> Device * SessionResult)
  (state : Device * list Sent) (cmd : string)
  : (Device * list Sent) * SessionResult :=
  let (device', result) := session (fst state) cmd in
  ((device', (snd state ++ [(cmd, result)])%list), result).

Definition listCommand (Dir : string) : string := "ls " ++ Dir ++ "/*.metadata".
Definition readCommand (metadataPath : string) : string := "cat " ++ metadataPath.
Definition removeCommand (Dir metadataPath : string) : string :=
  "rm -rf " ++ Dir ++ "/" ++ TrimSuffix (Base metadataPath) ".metadata" ++ "*".

(** The commands [CleanupExcept] sends to a tablet. *)
Definition cleanupCommands {Device Regexp : Type}
  (session : Device -> string -> Device * SessionResult)
  (Compile : string -> option Regexp) (reMatchString : Regexp -> string -> bool)
  (Dir pattern : string) (device : Device) : list Sent :=
  snd (fst (CleanupExcept (recording session) Compile reMatchString Dir pattern
              (device, []))).

(** A command of the loop of [CleanupExcept]: a read, or the removal of a
    document whose metadata was read and does not match the pattern. *)
Definition loopCommand {Regexp : Type} (Compile : string -> option Regexp)
  (reMatchString : Regexp -> string -> bool) (Dir pattern : string)
  (listed : list string) (sent : list Sent) (entry : Sent) : Prop :=
  exists metadataPath,
    In metadataPath listed
    /\ (fst entry = readCommand metadataPath
        \/ exists content,
             In (readCommand metadataPath, CombinedOutput content) sent
             /\ fst (MatchString Compile reMatchString pattern content) = false
             /\ fst entry = removeCommand Dir metadataPath).

(** A tablet on which the listing fails and every other command prints
    nothing. *)
Definition lockedTablet (device : unit) (cmd : string) : unit * SessionResult :=
  (device, if HasPrefix cmd "ls " then CommandFailed else CombinedOutput EmptyString).

(** A tablet with one document, whose metadata names it [Notes]. *)
Definition oneDocument (device : unit) (cmd : string) : unit * SessionResult :=
  (device,
   if HasPrefix cmd "ls " then CombinedOutput ("/docs/abc.metadata" ++ nl)
   else if HasPrefix cmd "cat " then CombinedOutput "visibleName: Notes"
   else CombinedOutput EmptyString).

(** An engine that compiles nothing. *)
Definition noCompile (pattern : string) : option unit := None.
Definition noMatch (re : unit) (s : string) : bool := false.

(** * Properties *)

(** ** Rendering *)

Lemma pdf_call op st : pdf (call op st) = (pdf st ++ [op])%list.
Proof. reflexivity. Qed.

(** C7 (as stated it fails): with the default options, whose base font size
    is 11, entering a heading of level 1 sets the size 15, not 11 + (7 - 1). *)
Lemma heading_size_ignores_base_size :
  pdf (visit DefaultPDFOptions (Heading 1 []) true {| pdf := []; inCode := false |})
  = [OpSetFont "Arial" "B" 15; OpLn 5]
  /\ ~ (15 == FontSize DefaultPDFOptions + (7 - 1))%Q.
Proof.
  split; [reflexivity | intros H; discriminate H].
Qed.

(** C7 (amended): entering a heading of level [Level] sets the main font,
    bold, at 16 - Level points whatever the base font size, then breaks the
    line; the size is not clamped: it is below 6 points exactly when the level
    is above 10, so for the levels 1 to 6 it lies between 10 and 15. *)
Theorem heading_font_size options Level children st :
  pdf (visit options (Heading Level children) true st)
  = (pdf st ++ [OpSetFont (MainFont options) "B" (16 - inject_Z Level); OpLn 5])%list
  /\ (16 - inject_Z Level == inject_Z (16 - Level))%Q
  /\ ((16 - inject_Z Level < 6)%Q <-> (10 < Level)%Z)
  /\ ((10 <= 16 - inject_Z Level)%Q /\ (16 - inject_Z Level <= 15)%Q
      <-> (1 <= Level <= 6)%Z).
Proof.
  assert (E : (16 - inject_Z Level == inject_Z (16 - Level))%Q).
  { unfold Qeq, Qminus, Qplus, Qopp, inject_Z; cbn [Qnum Qden]. lia. }
  split; [| split; [exact E | split]].
  - simpl. rewrite <- app_assoc. reflexivity.
  - rewrite E. change 6%Q with (inject_Z 6). rewrite <- Zlt_Qlt. lia.
  - rewrite E. change 10%Q with (inject_Z 10). change 15%Q with (inject_Z 15).
    rewrite <- !Zle_Qle. lia.
Qed.

(** *** The walk only appends calls, and sets no colour but the link's *)

Lemma walk_unfold options node st :
  walk options node st
  = if isContainer node
    then visit options node false
           (walkList options (childrenOf node) (visit options node true st))
    else visit options node true st.
Proof.
  assert (L : forall cs s,
    (fix walkAll (nodes : list Node) (st0 : RenderState) : RenderState :=
       match nodes with
       | [] => st0
       | n :: rest => walkAll rest (walk options n st0)
       end) cs s = walkList options cs s).
  { induction cs as [| c cs IH]; intros s; [reflexivity | apply IH]. }
  destruct node; cbn [walk isContainer childrenOf]; rewrite ?L; reflexivity.
Qed.

(** Induction on trees, with the hypothesis for every child. *)
Lemma Node_children_ind (P : Node -> Prop) :
  (forall node, isContainer node = true -> Forall P (childrenOf node) -> P node) ->
  (forall node, isContainer node = false -> P node) ->
  forall node, P node.
Proof.
  intros Hc Hl. fix IH 1. intros node.
  destruct node as [cs | l cs | cs | cs | cs | s | cs | s | cs |];
    first [ apply Hl; reflexivity | apply Hc; [reflexivity |] ];
    cbn [childrenOf]; induction cs as [| c cs IHcs]; constructor;
    first [ apply IH | exact IHcs ].
Qed.

Lemma appends_refl st : appends st st.
Proof. exists []. split; [symmetry; apply app_nil_r | constructor]. Qed.

Lemma appends_trans st1 st2 st3 :
  appends st1 st2 -> appends st2 st3 -> appends st1 st3.
Proof.
  intros (o1 & E1 & F1) (o2 & E2 & F2). exists (o1 ++ o2)%list. split.
  - rewrite E2, E1, app_assoc. reflexivity.
  - apply Forall_app; split; assumption.
Qed.

Lemma appends_call op st : keepsLinkColor op -> appends st (call op st).
Proof. intros K. exists [op]. split; [reflexivity | repeat constructor; exact K]. Qed.

Lemma appends_setInCode b st : appends st (setInCode b st).
Proof. exists []. split; [symmetry; apply app_nil_r | constructor]. Qed.

Ltac appends_chain :=
  repeat first
    [ apply appends_refl
    | eapply appends_trans; [| apply appends_setInCode ]
    | eapply appends_trans; [| apply appends_call; exact I ]
    | eapply appends_trans; [| apply appends_call; reflexivity ] ].

Lemma visit_appends options node entering st :
  appends st (visit options node entering st).
Proof.
  unfold visit. destruct entering; cbn [negb]; [| apply appends_refl].
  destruct node; try apply appends_refl.
  - appends_chain.
  - appends_chain.
  - appends_chain.
  - appends_chain.
  - destruct (Highlight options); appends_chain.
  - destruct (ColorLinks options); appends_chain.
  - destruct (inCode st) eqn:E; cbn [call inCode]; rewrite ?E; appends_chain.
Qed.

Lemma walkList_appends options cs :
  Forall (fun n => forall st, appends st (walk options n st)) cs ->
  forall st, appends st (walkList options cs st).
Proof.
  induction 1 as [| c cs Hc _ IH]; intros st; cbn [walkList].
  - apply appends_refl.
  - eapply appends_trans; [apply Hc | apply IH].
Qed.

Lemma walk_appends options node : forall st, appends st (walk options node st).
Proof.
  induction node using Node_children_ind; intros st; rewrite walk_unfold, H.
  - eapply appends_trans; [| apply visit_appends].
    eapply appends_trans; [apply visit_appends |].
    apply walkList_appends. assumption.
  - apply visit_appends.
Qed.

Lemma textColor_app c ops1 ops2 :
  textColor c (ops1 ++ ops2) = textColor (textColor c ops1) ops2.
Proof.
  revert c. induction ops1 as [| op ops1 IH]; intros c; [reflexivity |].
  destruct op; cbn [textColor app]; apply IH.
Qed.

Lemma textColor_stays ops :
  Forall keepsLinkColor ops -> textColor linkBlue ops = linkBlue.
Proof.
  induction 1 as [| op ops K _ IH]; [reflexivity |].
  destruct op; cbn [textColor]; try exact IH.
  cbn in K. rewrite K. exact IH.
Qed.

Lemma processMarkdown_appends options Parse handle content :
  exists ops,
    fst (processMarkdown options Parse handle content) = (handle ++ ops)%list
    /\ Forall keepsLinkColor ops.
Proof.
  unfold processMarkdown. cbn [fst].
  destruct (walk_appends options (Parse content)
              (call (OpSetFont (MainFont options) EmptyString (FontSize options))
                 {| pdf := handle; inCode := false |})) as (ops & E & F).
  exists (OpSetFont (MainFont options) EmptyString (FontSize options) :: ops).
  split.
  - rewrite E. cbn [call pdf]. rewrite <- app_assoc. reflexivity.
  - constructor; [exact I | exact F].
Qed.

(** C3 (as stated it fails): with [ColorLinks] on, the text of the paragraph
    that follows a paragraph with a link is still written in the link's
    colour: no call between the two resets the text colour. *)
Lemma link_color_reaches_next_paragraph :
  fst (processMarkdown DefaultPDFOptions (fun _ => linkThenText) [] "[a](u)")
  = [OpSetFont "Arial" EmptyString 11; OpLn 5; OpSetTextColor 0 0 255;
     OpMultiCell 0 5 "a" EmptyString EmptyString false; OpLn 5;
     OpMultiCell 0 5 "b" EmptyString EmptyString false]
  /\ drawn black
       (fst (processMarkdown DefaultPDFOptions (fun _ => linkThenText) [] "[a](u)"))
     = [("a", linkBlue); ("b", linkBlue)].
Proof. split; reflexivity. Qed.

(** C3 (amended): the link colour is sticky.  The only text colour the walk
    ever sets is the link's (0, 0, 255), on entering a [Link] with
    [ColorLinks] on, and nothing resets it on entering a [Paragraph],
    [Heading] or [ListItem]: from any point of the emitted calls where the
    text colour is the link's, it is still the link's after every later
    call. *)
Theorem link_color_is_sticky options Parse handle content before mid after c :
  fst (processMarkdown options Parse handle content)
  = (handle ++ before ++ mid ++ after)%list ->
  textColor c (handle ++ before) = linkBlue ->
  textColor c (handle ++ before ++ mid) = linkBlue
  /\ entersWithoutReset options.
Proof.
  intros E B. split.
  - destruct (processMarkdown_appends options Parse handle content)
      as (ops & E' & F).
    rewrite E in E'. apply app_inv_head in E'. subst ops.
    apply Forall_app in F. destruct F as [_ F].
    apply Forall_app in F. destruct F as [F _].
    rewrite app_assoc, textColor_app, B. apply textColor_stays. exact F.
  - repeat split; intros; cbn [visit negb call pdf]; rewrite <- ?app_assoc;
      try reflexivity.
    destruct (ColorLinks options); reflexivity.
Qed.

Lemma link_color_is_sticky_witness :
  textColor black
    ([] ++ [OpSetFont "Arial" EmptyString 11; OpLn 5; OpSetTextColor 0 0 255]
        ++ [OpMultiCell 0 5 "a" EmptyString EmptyString false; OpLn 5;
            OpMultiCell 0 5 "b" EmptyString EmptyString false])
  = linkBlue
  /\ entersWithoutReset DefaultPDFOptions.
Proof.
  apply (link_color_is_sticky DefaultPDFOptions (fun _ => linkThenText) []
           "[a](u)" _ _ [] black); reflexivity.
Defined.

(** C10 (as stated it fails): [processMarkdown] has no failing result.  For a
    text with a fence that is never closed, and for any text, whatever tree
    the parser returns, the error it returns is [nil]. *)
Lemma processMarkdown_error_is_nil :
  (fun Parse =>
     snd (processMarkdown DefaultPDFOptions Parse []
            ("```" ++ nl ++ "code")))
  = (fun _ => None)
  /\ (fun options Parse handle content =>
        snd (processMarkdown options Parse handle content))
     = (fun _ _ _ _ => None).
Proof. split; reflexivity. Qed.

(** C10 (amended): the conversion of markdown never fails on its input: the
    parser returns a tree and no error, [processMarkdown] walks that tree,
    keeps every call already made on the handle and returns a [nil] error,
    also for a text with a fence that is never closed. *)
Theorem processMarkdown_never_fails options Parse handle content :
  snd (processMarkdown options Parse handle content) = None
  /\ exists ops,
       fst (processMarkdown options Parse handle content) = (handle ++ ops)%list.
Proof.
  split; [reflexivity |].
  destruct (processMarkdown_appends options Parse handle content) as (ops & E & _).
  exists ops. exact E.
Qed.

(** ** Cleanup of the extracted text *)

(** *** Bytes and strings *)

Lemma append_nil_r (s : string) : s ++ EmptyString = s.
Proof. induction s as [| c s IH]; cbn; [| rewrite IH]; reflexivity. Qed.

Lemma append_assoc (a b c : string) : (a ++ b) ++ c = a ++ b ++ c.
Proof. induction a as [| x a IH]; cbn; [| rewrite IH]; reflexivity. Qed.

Lemma Count_append a b c : Count (a ++ b) c = Count a c + Count b c.
Proof. induction a as [| x a IH]; cbn; [| rewrite IH, Nat.add_assoc]; reflexivity. Qed.

Lemma Count_repeatByte c n : Count (repeatByte c n) c = n.
Proof.
  induction n as [| n IH]; cbn; [reflexivity |].
  rewrite Ascii.eqb_refl, IH. reflexivity.
Qed.

Lemma TrimLeft_none s c : Count s c = 0 -> TrimLeft s c = s.
Proof.
  destruct s as [| x s]; cbn; [reflexivity |].
  destruct (Ascii.eqb x c); [discriminate | reflexivity].
Qed.

Lemma TrimLeft_repeatByte c n s :
  TrimLeft (repeatByte c n ++ s) c = TrimLeft s c.
Proof.
  induction n as [| n IH]; cbn; [reflexivity |].
  rewrite Ascii.eqb_refl. exact IH.
Qed.

Lemma leading_repeatByte c n s :
  leading (repeatByte c n ++ s) c = n + leading s c.
Proof.
  induction n as [| n IH]; cbn; [reflexivity |].
  rewrite Ascii.eqb_refl, IH. reflexivity.
Qed.

Lemma wrapInt_small z : inInt z -> wrapInt z = z.
Proof.
  unfold inInt, wrapInt. intros H.
  rewrite Z.mod_small; lia.
Qed.

(** *** The cases of one iteration *)

Lemma step_skip mdOptions st raw :
  TrimSpace raw = EmptyString -> lastIsEmpty (result st) = true ->
  step mdOptions st raw = Some st.
Proof. intros Ht Hl. unfold step. rewrite Ht, Hl. reflexivity. Qed.

Lemma step_blank mdOptions st raw :
  TrimSpace raw = EmptyString -> lastIsEmpty (result st) = false ->
  step mdOptions st raw = Some (push st EmptyString (inCodeBlock st)).
Proof.
  intros Ht Hl. unfold step. rewrite Ht, Hl.
  cbn [String.eqb andb HasPrefix fence].
  destruct (inCodeBlock st); reflexivity.
Qed.

Lemma step_fence mdOptions st raw line :
  TrimSpace raw = line -> HasPrefix line fence = true ->
  step mdOptions st raw = Some (push st line (negb (inCodeBlock st))).
Proof.
  intros Ht Hp. unfold step. rewrite Ht, Hp.
  destruct line; [discriminate Hp | reflexivity].
Qed.

Lemma step_inside mdOptions st raw line :
  TrimSpace raw = line -> line <> EmptyString -> HasPrefix line fence = false ->
  inCodeBlock st = true ->
  step mdOptions st raw = Some (push st line true).
Proof.
  intros Ht Hn Hp Hf. unfold step. rewrite Ht, Hp, Hf.
  apply String.eqb_neq in Hn. rewrite Hn. reflexivity.
Qed.

Lemma step_outside mdOptions st raw line :
  TrimSpace raw = line -> line <> EmptyString -> HasPrefix line fence = false ->
  inCodeBlock st = false ->
  step mdOptions st raw
  = match rewriteLine mdOptions line with
    | None => None
    | Some line' => Some (push st line' false)
    end.
Proof.
  intros Ht Hn Hp Hf. unfold step. rewrite Ht, Hp, Hf.
  apply String.eqb_neq in Hn. rewrite Hn. reflexivity.
Qed.

Lemma rewriteLine_heading mdOptions line :
  HasPrefix line "#" = true ->
  rewriteLine mdOptions line
  = match Repeat "#" (wrapInt (Z.of_nat (Count line "#")
                               + HeaderLevelAdjust mdOptions)) with
    | None => None
    | Some hashes => Some (hashes ++ " " ++ TrimSpace (TrimLeft line "#"))
    end.
Proof. intros H. unfold rewriteLine. rewrite H. reflexivity. Qed.

(** *** Headings *)

(** C1 (as stated it fails): with the default adjustment 1 a heading of
    level 6 comes out with seven [#], not with clamp (6 + 1) = 6 of them; and
    with the adjustment -1 a heading of level 1 comes out with none, not with
    clamp (1 - 1) = 1. *)
Lemma heading_level_is_not_clamped :
  cleanupMarkdownText (defaultsWith 1) "###### T" = Some "####### T"
  /\ leading "####### T" "#" = 7
  /\ clamp 1 6 (6 + 1) = 6%Z
  /\ cleanupMarkdownText (defaultsWith (-1)) "# T" = Some " T"
  /\ leading " T" "#" = 0
  /\ clamp 1 6 (1 + -1) = 1%Z.
Proof. repeat split; vm_compute; reflexivity. Qed.

(** C1 (amended): outside a code block, a line whose trimmed form is [L]
    times [#] (at least once) followed by a title without any [#] is replaced
    by a heading of level L + k exactly, with no clamping to the range 1 to 6,
    whenever L + k is not negative: the emitted line is L + k times [#], a
    space and the trimmed title.  (Nothing is said here of a title that
    holds a [#], nor of a negative L + k.) *)
Theorem heading_level_shift mdOptions st raw L title :
  TrimSpace raw = repeatByte "#" L ++ title ->
  1 <= L ->
  Count title "#" = 0 ->
  inCodeBlock st = false ->
  (0 <= Z.of_nat L + HeaderLevelAdjust mdOptions < 2 ^ 63)%Z ->
  let level := (Z.of_nat L + HeaderLevelAdjust mdOptions)%Z in
  let line' := repeatByte "#" (Z.to_nat level) ++ " " ++ TrimSpace title in
  step mdOptions st raw = Some (push st line' false)
  /\ Z.of_nat (leading line' "#") = level.
Proof.
  intros Ht HL Hc Hf Hk level line'. split.
  - destruct L as [| L']; [lia |].
    rewrite (step_outside mdOptions st raw _ Ht)
      by first [discriminate | reflexivity | assumption].
    rewrite rewriteLine_heading by reflexivity.
    rewrite Count_append, Count_repeatByte, Hc, Nat.add_0_r.
    rewrite wrapInt_small by (unfold inInt; lia).
    unfold Repeat. fold level.
    destruct (Z.ltb_spec level 0) as [Hn | _]; [unfold level in Hn; lia |].
    rewrite TrimLeft_repeatByte, (TrimLeft_none _ _ Hc). reflexivity.
  - unfold line'. rewrite leading_repeatByte. cbn [append leading Ascii.eqb Bool.eqb].
    rewrite Nat.add_0_r, Z2Nat.id; [reflexivity | unfold level; lia].
Qed.

Lemma heading_level_shift_witness :
  step (defaultsWith 1) initState "  ###### Notes "
  = Some (push initState "####### Notes" false)
  /\ Z.of_nat (leading "####### Notes" "#") = 7%Z.
Proof.
  apply (heading_level_shift (defaultsWith 1) initState "  ###### Notes " 6 " Notes");
    [reflexivity | lia | reflexivity | reflexivity | cbn; lia].
Defined.

(** C4 (the code fails it): a line that starts with [#] whose count of [#]
    plus the adjustment is negative makes [strings.Repeat] panic, and the
    whole cleanup with it. *)
Lemma cleanup_panics_on_negative_level :
  cleanupMarkdownText (defaultsWith (-2)) "# T" = None.
Proof. reflexivity. Qed.

(** C5 (the code fails it): a numbered item is put back together from the
    number, a dot and the trimmed text, with no space after the dot. *)
Lemma numbered_item_loses_its_space :
  cleanupMarkdownText DefaultMarkdownOptions "1. first" = Some "1.first"
  /\ cleanupMarkdownText DefaultMarkdownOptions "12.   twelfth" = Some "12.twelfth".
Proof. split; reflexivity. Qed.

(** *** Lines inside a fence *)

(** C2 (as stated it fails): between two fence lines the indentation of a
    line and a run of blank lines are not kept: every line is trimmed and
    a run of blank lines is collapsed, inside a fence as outside. *)
Lemma fenced_lines_are_trimmed_and_collapsed :
  cleanupMarkdownText DefaultMarkdownOptions fencedSample
  = Some ("```" ++ nl ++ "x" ++ nl ++ nl ++ "# y" ++ nl ++ "```")
  /\ Split fencedSample newline = ["```"; "  x  "; EmptyString; EmptyString; "# y"; "```"].
Proof. split; reflexivity. Qed.

Lemma keepInside_inCodeBlock st raw :
  inCodeBlock st = true -> inCodeBlock (keepInside st raw) = true.
Proof.
  intros H. unfold keepInside.
  destruct (String.eqb (TrimSpace raw) EmptyString && lastIsEmpty (result st));
    [exact H | reflexivity].
Qed.

Lemma fold_keepInside_nonblank body : forall st,
  Forall (fun raw => TrimSpace raw <> EmptyString) body ->
  result (fold_left keepInside body st) = (result st ++ map TrimSpace body)%list.
Proof.
  induction body as [| raw body IH]; intros st F; cbn [fold_left map].
  - symmetry. apply app_nil_r.
  - inversion F as [| ? ? Hn F']; subst.
    rewrite IH by exact F'. unfold keepInside.
    apply String.eqb_neq in Hn. rewrite Hn. cbn [andb push result].
    rewrite <- app_assoc. reflexivity.
Qed.

(** C2 (amended): a line between two fence lines is never rewritten as a
    heading, a bullet or a numbered item, whatever it looks like and whatever
    the options: the iteration appends the line with its leading and trailing
    white space trimmed and nothing else changed, and drops it when it is
    empty and the line appended before it was empty.  So when no line of the
    block is blank, the block comes out as its lines, each trimmed. *)
Theorem fence_interior_only_trimmed mdOptions body st :
  inCodeBlock st = true ->
  Forall (fun raw => HasPrefix (TrimSpace raw) fence = false) body ->
  cleanupLoop mdOptions body st = Some (fold_left keepInside body st)
  /\ inCodeBlock (fold_left keepInside body st) = true
  /\ (Forall (fun raw => TrimSpace raw <> EmptyString) body ->
      result (fold_left keepInside body st)
      = (result st ++ map TrimSpace body)%list).
Proof.
  intros Hf F. split; [| split].
  - revert st Hf. induction F as [| raw body Hp _ IH]; intros st Hf; [reflexivity |].
    cbn [cleanupLoop fold_left].
    assert (E : step mdOptions st raw = Some (keepInside st raw)).
    { unfold step, keepInside. cbv zeta. rewrite Hp, Hf.
      destruct (String.eqb (TrimSpace raw) EmptyString && lastIsEmpty (result st));
        reflexivity. }
    rewrite E. apply IH. apply keepInside_inCodeBlock. exact Hf.
  - clear F. revert st Hf. induction body as [| raw body IH]; intros st Hf;
      [exact Hf | apply IH, keepInside_inCodeBlock, Hf].
  - apply fold_keepInside_nonblank.
Qed.

Lemma fence_interior_only_trimmed_witness :
  cleanupLoop (defaultsWith (-7)) ["  # not a heading"; "* kept"; "1. one"]
    {| result := ["```"]; inCodeBlock := true |}
  = Some {| result := ["```"; "# not a heading"; "* kept"; "1. one"];
            inCodeBlock := true |}.
Proof.
  apply (fence_interior_only_trimmed (defaultsWith (-7))
           ["  # not a heading"; "* kept"; "1. one"]
           {| result := ["```"]; inCodeBlock := true |});
    [reflexivity | repeat constructor].
Defined.

(** *** The cleanup switch of [PDFToMarkdown] *)

(** C9 (as stated it fails): with the cleanup off the lines are not trimmed;
    the text is written as it was extracted. *)
Lemma cleanup_off_keeps_white_space :
  PDFToMarkdown rawOptions (sampleEnv ("  a  " ++ nl ++ " b")) "notes" "out/notes.md"
  = Written "out/notes.md" ("  a  " ++ nl ++ " b")
  /\ Join (map TrimSpace (Split ("  a  " ++ nl ++ " b") newline)) newline
     = "a" ++ nl ++ "b".
Proof. split; reflexivity. Qed.

(** C9 (amended): with [CleanupText] off, [cleanupMarkdownText] is not
    called at all: no blank-run collapse, no fence handling, no rewriting of
    headings, bullets or numbers, and no trimming either.  The text extracted
    from the PDF is written byte for byte as it is, after the frontmatter when
    that is asked for. *)
Theorem cleanup_off_writes_raw_text mdOptions env title mdPath text :
  CleanupText mdOptions = false ->
  plainText env = inr text ->
  writable env = true ->
  PDFToMarkdown mdOptions env title mdPath
  = Written mdPath
      ((if AddFrontmatter mdOptions then frontmatter title (today env)
        else EmptyString) ++ text).
Proof.
  intros Hc Ht Hw. unfold PDFToMarkdown. rewrite Ht, Hc, Hw. reflexivity.
Qed.

Lemma cleanup_off_writes_raw_text_witness :
  PDFToMarkdown rawOptions (sampleEnv "  # a  ") "notes" "out/notes.md"
  = Written "out/notes.md" "  # a  ".
Proof.
  apply (cleanup_off_writes_raw_text rawOptions (sampleEnv "  # a  ")
           "notes" "out/notes.md" "  # a  "); reflexivity.
Defined.

(** *** Runs of blank lines *)


Lemma lastIsEmpty_cons a b ls :
  lastIsEmpty (a :: b :: ls) = lastIsEmpty (b :: ls).
Proof.
  unfold lastIsEmpty. cbn [rev].
  destruct (rev ls ++ [b])%list eqn:E; [| reflexivity].
  destruct (rev ls); discriminate E.
Qed.

Lemma noBlankPair_snoc ls x :
  noBlankPair (ls ++ [x])
  = noBlankPair ls && negb (lastIsEmpty ls && String.eqb x EmptyString).
Proof.
  induction ls as [| a ls IH]; [reflexivity |].
  destruct ls as [| b ls].
  - cbn. destruct (String.eqb a EmptyString), (String.eqb x EmptyString); reflexivity.
  - change ((a :: b :: ls) ++ [x])%list with (a :: (b :: ls) ++ [x])%list.
    cbn [noBlankPair app] in *. rewrite IH, lastIsEmpty_cons.
    rewrite andb_assoc. reflexivity.
Qed.

Lemma append_not_empty a c b : a ++ String c b <> EmptyString.
Proof. destruct a; discriminate. Qed.

Lemma rewriteLine_not_empty mdOptions line line' :
  line <> EmptyString -> rewriteLine mdOptions line = Some line' ->
  line' <> EmptyString.
Proof.
  intros Hn. unfold rewriteLine.
  destruct (HasPrefix line "#").
  - destruct (Repeat "#" _); [| discriminate].
    intros E; injection E as <-. apply append_not_empty.
  - destruct (HasPrefix line "* " || HasPrefix line "- ").
    + intros E; injection E as <-. discriminate.
    + destruct (matchNumbered line).
      * destruct (SplitN2 line ".") as [| p0 [| p1 [| ? ?]]];
          intros E; injection E as <-; try exact Hn.
        apply append_not_empty.
      * intros E; injection E as <-. exact Hn.
Qed.

Lemma HasPrefix_fence_not_empty line :
  HasPrefix line fence = true -> line <> EmptyString.
Proof. destruct line; [discriminate | discriminate]. Qed.

(** What an iteration can do: leave the state alone, on a blank line after an
    empty one, or append one line, which is empty exactly when the input
    line is blank. *)
Lemma step_cases mdOptions st raw st' :
  step mdOptions st raw = Some st' ->
  (st' = st /\ TrimSpace raw = EmptyString /\ lastIsEmpty (result st) = true)
  \/ exists line' flag,
       st' = push st line' flag
       /\ (TrimSpace raw = EmptyString ->
           line' = EmptyString /\ lastIsEmpty (result st) = false
           /\ flag = inCodeBlock st)
       /\ (TrimSpace raw <> EmptyString -> line' <> EmptyString).
Proof.
  intros E.
  destruct (string_dec (TrimSpace raw) EmptyString) as [Hb | Hn].
  - destruct (lastIsEmpty (result st)) eqn:Hl.
    + rewrite (step_skip _ _ _ Hb Hl) in E. injection E as <-. left. auto.
    + rewrite (step_blank _ _ _ Hb Hl) in E. injection E as <-. right.
      exists EmptyString, (inCodeBlock st). repeat split; auto.
  - right. destruct (HasPrefix (TrimSpace raw) fence) eqn:Hp.
    + rewrite (step_fence _ _ _ _ eq_refl Hp) in E. injection E as <-.
      exists (TrimSpace raw), (negb (inCodeBlock st)).
      split; [reflexivity | split; [contradiction | auto]].
    + destruct (inCodeBlock st) eqn:Hf.
      * rewrite (step_inside _ _ _ _ eq_refl Hn Hp Hf) in E. injection E as <-.
        exists (TrimSpace raw), true.
        split; [reflexivity | split; [contradiction | auto]].
      * rewrite (step_outside _ _ _ _ eq_refl Hn Hp Hf) in E.
        destruct (rewriteLine mdOptions (TrimSpace raw)) as [line' |] eqn:R;
          [| discriminate].
        injection E as <-. exists line', false.
        split; [reflexivity | split; [contradiction |]].
        intros _. eapply rewriteLine_not_empty; eassumption.
Qed.

Lemma step_keeps_noBlankPair mdOptions st raw st' :
  step mdOptions st raw = Some st' ->
  noBlankPair (result st) = true -> noBlankPair (result st') = true.
Proof.
  intros E Inv. destruct (step_cases _ _ _ _ E) as [(-> & _) | (x & f & -> & Hb & Hn)];
    [exact Inv |].
  cbn [push result]. rewrite noBlankPair_snoc, Inv. cbn [andb].
  destruct (string_dec (TrimSpace raw) EmptyString) as [B | N].
  - destruct (Hb B) as (_ & -> & _). reflexivity.
  - apply Hn, String.eqb_neq in N. rewrite N, andb_false_r. reflexivity.
Qed.


Lemma cleanupLoop_app mdOptions a b st :
  cleanupLoop mdOptions (a ++ b) st
  = match cleanupLoop mdOptions a st with
    | None => None
    | Some st' => cleanupLoop mdOptions b st'
    end.
Proof.
  revert st. induction a as [| raw a IH]; intros st; [reflexivity |].
  cbn [app cleanupLoop]. destruct (step mdOptions st raw); [apply IH | reflexivity].
Qed.

Lemma cleanupLoop_keeps_noBlankPair mdOptions lines : forall st st',
  cleanupLoop mdOptions lines st = Some st' ->
  noBlankPair (result st) = true -> noBlankPair (result st') = true.
Proof.
  induction lines as [| raw lines IH]; intros st st' E Inv; cbn [cleanupLoop] in E.
  - injection E as <-. exact Inv.
  - destruct (step mdOptions st raw) as [st1 |] eqn:S1; [| discriminate].
    eapply IH; [exact E |]. eapply step_keeps_noBlankPair; eassumption.
Qed.




(** *** Trimming *)

Lemma revAppend_append s acc : revAppend s acc = reverse s ++ acc.
Proof.
  unfold reverse. revert acc. induction s as [| c s IH]; intros acc; [reflexivity |].
  cbn [revAppend]. rewrite IH, (IH (String c EmptyString)), append_assoc.
  reflexivity.
Qed.

Lemma reverse_cons c s : reverse (String c s) = reverse s ++ String c EmptyString.
Proof. unfold reverse at 1. cbn [revAppend]. apply revAppend_append. Qed.

Lemma reverse_append a b : reverse (a ++ b) = reverse b ++ reverse a.
Proof.
  induction a as [| c a IH]; cbn [append].
  - symmetry. apply append_nil_r.
  - rewrite !reverse_cons, IH, append_assoc. reflexivity.
Qed.

Lemma reverse_involutive s : reverse (reverse s) = s.
Proof.
  induction s as [| c s IH]; [reflexivity |].
  rewrite reverse_cons, reverse_append, IH. reflexivity.
Qed.

Lemma reverse_empty s : reverse s = EmptyString -> s = EmptyString.
Proof. intros H. rewrite <- (reverse_involutive s), H. reflexivity. Qed.

Lemma Count_reverse s c : Count (reverse s) c = Count s c.
Proof.
  induction s as [| x s IH]; [reflexivity |].
  rewrite reverse_cons, Count_append, IH. cbn [Count]. lia.
Qed.

Lemma string_length_ind (P : string -> Prop) :
  (forall s, (forall s', String.length s' < String.length s -> P s') -> P s) ->
  forall s, P s.
Proof.
  intros H s. remember (String.length s) as n eqn:E.
  revert s E. induction n as [n IH] using lt_wf_ind. intros s ->.
  apply H. intros s' L. eapply IH; [exact L | reflexivity].
Qed.

Lemma asciiSpace_low c : asciiSpace c = true -> high c = false.
Proof.
  unfold asciiSpace, high. cbv zeta.
  rewrite orb_true_iff, andb_true_iff, !N.leb_le, N.eqb_eq, N.leb_gt. lia.
Qed.

Lemma space2_high a b : space2 a b = true -> high a = true /\ high b = true.
Proof.
  unfold space2, high.
  rewrite andb_true_iff, orb_true_iff, !N.eqb_eq, !N.leb_le. lia.
Qed.

Lemma space3_high a b c :
  space3 a b c = true -> high a = true /\ high b = true /\ high c = true.
Proof.
  unfold space3, high. cbv zeta.
  rewrite !orb_true_iff, !andb_true_iff, !orb_true_iff, !andb_true_iff,
    !N.eqb_eq, !N.leb_le. lia.
Qed.

Section StripFacts.
Variable two : ascii -> ascii -> bool.
Variable three : ascii -> ascii -> ascii -> bool.
Hypothesis two_high : forall a b, two a b = true -> high a = true /\ high b = true.
Hypothesis three_high :
  forall a b c, three a b c = true -> high a = true /\ high b = true /\ high c = true.

Lemma strip_fixed s : startsSpace two three s = false -> stripSpaces two three s = s.
Proof.
  destruct s as [| c1 [| c2 [| c3 r]]]; cbn [startsSpace stripSpaces];
    rewrite ?orb_false_iff; intros H; try reflexivity.
  - destruct H as [-> _]. reflexivity.
  - destruct H as [-> [-> _]]. reflexivity.
  - destruct H as [-> [-> ->]]. reflexivity.
Qed.

Lemma strip_step s :
  startsSpace two three s = false
  \/ exists w s', s = w ++ s' /\ w <> EmptyString
                  /\ isRune two three w = true
                  /\ stripSpaces two three s = stripSpaces two three s'.
Proof.
  destruct s as [| c1 r1]; [left; reflexivity |].
  destruct (asciiSpace c1) eqn:A.
  { right. exists (String c1 EmptyString), r1.
    repeat split; [discriminate | exact A | cbn; rewrite A; reflexivity]. }
  destruct r1 as [| c2 r2]; [left; cbn; rewrite A; reflexivity |].
  destruct (two c1 c2) eqn:T.
  { right. exists (String c1 (String c2 EmptyString)), r2.
    repeat split; [discriminate | exact T | cbn; rewrite A, T; reflexivity]. }
  destruct r2 as [| c3 r3]; [left; cbn; rewrite A, T; reflexivity |].
  destruct (three c1 c2 c3) eqn:H.
  { right. exists (String c1 (String c2 (String c3 EmptyString))), r3.
    repeat split; [discriminate | exact H | cbn; rewrite A, T, H; reflexivity]. }
  left. cbn. rewrite A, T, H. reflexivity.
Qed.

Lemma length_append a b : String.length (a ++ b) = String.length a + String.length b.
Proof. induction a as [| c a IH]; cbn; [| rewrite IH]; reflexivity. Qed.

Lemma length_pos w : w <> EmptyString -> 0 < String.length w.
Proof. destruct w; [contradiction | cbn; lia]. Qed.

Lemma strip_starts s : startsSpace two three (stripSpaces two three s) = false.
Proof.
  induction s as [s IH] using string_length_ind.
  destruct (strip_step s) as [E | (w & s' & -> & Hw & _ & E)].
  - rewrite strip_fixed; exact E.
  - rewrite E. apply IH. rewrite length_append. apply length_pos in Hw. lia.
Qed.

(** What is left is the end of the string. *)
Lemma strip_suffix s : exists p, s = p ++ stripSpaces two three s.
Proof.
  induction s as [s IH] using string_length_ind.
  destruct (strip_step s) as [E | (w & s' & -> & Hw & _ & E)].
  - exists EmptyString. rewrite strip_fixed; [reflexivity | exact E].
  - destruct (IH s') as (p & Ep).
    { rewrite length_append. apply length_pos in Hw. lia. }
    exists (w ++ p). rewrite E, append_assoc, <- Ep. reflexivity.
Qed.

Lemma starts_append u v : startsSpace two three u = true -> startsSpace two three (u ++ v) = true.
Proof.
  destruct u as [| c1 [| c2 [| c3 r]]]; cbn [startsSpace append];
    try discriminate; rewrite ?orb_false_r; intros H.
  - rewrite H. reflexivity.
  - apply orb_true_iff in H. destruct H as [-> | ->]; [reflexivity |].
    apply orb_true_r.
  - exact H.
Qed.

Lemma starts_low c s :
  high c = false -> asciiSpace c = false -> startsSpace two three (String c s) = false.
Proof.
  intros L A. cbn [startsSpace]. rewrite A. cbn [orb].
  destruct s as [| c2 r2]; [reflexivity |].
  destruct (two c c2) eqn:T.
  { apply two_high in T. destruct T as [T _]. congruence. }
  destruct r2 as [| c3 r3]; [reflexivity |].
  destruct (three c c2 c3) eqn:H; [| reflexivity].
  apply three_high in H. destruct H as [H _]. congruence.
Qed.

(** A byte below 128 ends every rune before it. *)
Lemma starts_before_low u x v :
  u <> EmptyString -> high x = false ->
  startsSpace two three (u ++ String x v) = startsSpace two three u.
Proof.
  intros Hu L. destruct u as [| c1 [| c2 [| c3 r]]]; [contradiction | | |];
    cbn [startsSpace append]; try reflexivity.
  - destruct (two c1 x) eqn:T.
    { apply two_high in T. destruct T as [_ T]. congruence. }
    destruct v as [| y v']; [reflexivity |].
    destruct (three c1 x y) eqn:H; [| reflexivity].
    apply three_high in H. destruct H as (_ & H & _). congruence.
  - destruct (three c1 c2 x) eqn:H; [| reflexivity].
    apply three_high in H. destruct H as (_ & _ & H). congruence.
Qed.

End StripFacts.

Lemma space2R_high a b : space2R a b = true -> high a = true /\ high b = true.
Proof. intros H. apply space2_high in H. tauto. Qed.

Lemma space3R_high a b c :
  space3R a b c = true -> high a = true /\ high b = true /\ high c = true.
Proof. intros H. apply space3_high in H. tauto. Qed.

Lemma trimRightSpace_eq s :
  trimRightSpace s = reverse (stripSpaces space2R space3R (reverse s)).
Proof. reflexivity. Qed.

Lemma trimLeft_fixed s : startsWS s = false -> trimLeftSpace s = s.
Proof. apply strip_fixed. Qed.

Lemma trimRight_fixed s : endsWS s = false -> trimRightSpace s = s.
Proof.
  intros H. rewrite trimRightSpace_eq, strip_fixed by exact H.
  apply reverse_involutive.
Qed.

Lemma trimLeft_suffix s : exists p, s = p ++ trimLeftSpace s.
Proof. apply strip_suffix. Qed.

Lemma trimRight_prefix s : exists q, s = trimRightSpace s ++ q.
Proof.
  destruct (strip_suffix space2R space3R (reverse s)) as (p & E).
  exists (reverse p). rewrite trimRightSpace_eq, <- reverse_append, <- E.
  symmetry. apply reverse_involutive.
Qed.

Lemma starts_prefix u v : startsWS (u ++ v) = false -> startsWS u = false.
Proof.
  intros H. destruct (startsWS u) eqn:E; [| reflexivity].
  unfold startsWS in *. rewrite (starts_append _ _ u v E) in H. discriminate.
Qed.

Lemma ends_append u v : endsWS v = true -> endsWS (u ++ v) = true.
Proof.
  unfold endsWS. intros H. rewrite reverse_append. apply starts_append. exact H.
Qed.

Lemma ends_after_low u x v :
  v <> EmptyString -> high x = false -> endsWS (u ++ String x v) = endsWS v.
Proof.
  intros Hv L. unfold endsWS.
  rewrite reverse_append, reverse_cons, append_assoc. cbn [append].
  apply (starts_before_low space2R space3R space2R_high space3R_high);
    [| exact L].
  intros E. apply Hv, reverse_empty, E.
Qed.

Lemma ends_low u x :
  high x = false -> asciiSpace x = false ->
  endsWS (u ++ String x EmptyString) = false.
Proof.
  intros L A. unfold endsWS. rewrite reverse_append. cbn [reverse revAppend append].
  apply (starts_low space2R space3R space2R_high space3R_high); assumption.
Qed.

Lemma TrimSpace_trimmed s : trimmed (TrimSpace s).
Proof.
  unfold TrimSpace. split.
  - destruct (trimRight_prefix (trimLeftSpace s)) as (q & E).
    apply (starts_prefix _ q). rewrite <- E. apply strip_starts.
  - unfold endsWS. rewrite trimRightSpace_eq, reverse_involutive.
    apply strip_starts.
Qed.

Lemma TrimSpace_fixed s : trimmed s -> TrimSpace s = s.
Proof.
  intros [Hs He]. unfold TrimSpace.
  rewrite (trimLeft_fixed _ Hs). apply trimRight_fixed, He.
Qed.

Lemma TrimSpace_idempotent s : TrimSpace (TrimSpace s) = TrimSpace s.
Proof. apply TrimSpace_fixed, TrimSpace_trimmed. Qed.

Lemma rune_reversed w :
  isRune space2 space3 w = true -> endsWS w = true.
Proof.
  unfold endsWS.
  destruct w as [| c1 [| c2 [| c3 [| c4 r]]]]; cbn; try discriminate; intros H.
  - rewrite H. reflexivity.
  - unfold space2R. rewrite H. apply orb_true_r.
  - unfold space3R. rewrite H. rewrite !orb_true_r. reflexivity.
Qed.

Lemma trimLeft_empty s :
  trimLeftSpace s = EmptyString -> s = EmptyString \/ endsWS s = true.
Proof.
  induction s as [s IH] using string_length_ind. intros E.
  destruct (strip_step space2 space3 s) as [F | (w & s' & -> & Hw & R & E')].
  - left. rewrite <- E. symmetry. apply trimLeft_fixed, F.
  - right. unfold trimLeftSpace in E. rewrite E' in E.
    destruct (IH s') as [-> | He].
    + rewrite length_append. apply length_pos in Hw. lia.
    + exact E.
    + rewrite append_nil_r. apply rune_reversed, R.
    + apply ends_append, He.
Qed.

Lemma TrimSpace_empty s :
  TrimSpace s = EmptyString -> s = EmptyString \/ endsWS s = true.
Proof.
  unfold TrimSpace. intros E.
  destruct (trimLeft_suffix s) as (p & Ep).
  destruct (endsWS (trimLeftSpace s)) eqn:He.
  - right. rewrite Ep. apply ends_append, He.
  - rewrite (trimRight_fixed _ He) in E. apply trimLeft_empty, E.
Qed.

Lemma TrimSpace_empty_string : TrimSpace EmptyString = EmptyString.
Proof. reflexivity. Qed.

(** *** Counting bytes across the string functions *)

Lemma Count_le_length s c : Count s c <= String.length s.
Proof.
  induction s as [| x s IH]; cbn; [lia |]. destruct (Ascii.eqb x c); lia.
Qed.

Lemma Count_TrimSpace_le s c : Count (TrimSpace s) c <= Count s c.
Proof.
  unfold TrimSpace.
  destruct (trimLeft_suffix s) as (p & Ep).
  destruct (trimRight_prefix (trimLeftSpace s)) as (q & Eq).
  rewrite Ep at 2. rewrite Eq at 2. rewrite !Count_append. lia.
Qed.

Lemma Count_TrimLeft_le s x c : Count (TrimLeft s x) c <= Count s c.
Proof.
  induction s as [| y s IH]; cbn [TrimLeft]; [lia |].
  destruct (Ascii.eqb y x); [cbn [Count]; lia | lia].
Qed.

Lemma Count_leading s c : Count s c = leading s c + Count (TrimLeft s c) c.
Proof.
  induction s as [| x s IH]; [reflexivity |].
  cbn [Count leading TrimLeft]. destruct (Ascii.eqb x c) eqn:E.
  - rewrite IH. reflexivity.
  - cbn [Count]. rewrite E. reflexivity.
Qed.

Lemma Count_sliceFrom_le n s c : Count (sliceFrom n s) c <= Count s c.
Proof.
  revert s. induction n as [| n IH]; intros s; [cbn; lia |].
  destruct s as [| x s]; cbn [sliceFrom Count]; [lia |].
  specialize (IH s). lia.
Qed.

Lemma Count_repeatByte_other c x n :
  Ascii.eqb c x = false -> Count (repeatByte c n) x = 0.
Proof.
  intros E. induction n as [| n IH]; cbn; [reflexivity |]. rewrite E, IH. reflexivity.
Qed.

Lemma cut_some s sep a b :
  cut s sep = Some (a, b) -> s = a ++ String sep b /\ Count a sep = 0.
Proof.
  revert a. induction s as [| x s IH]; intros a; cbn [cut]; [discriminate |].
  destruct (Ascii.eqb_spec x sep) as [-> | N].
  - intros E. injection E as <- <-. split; reflexivity.
  - destruct (cut s sep) as [[a' b'] |]; [| discriminate].
    intros E. injection E as <- <-. destruct (IH a' eq_refl) as [-> C].
    split; [reflexivity |]. cbn [Count].
    apply Ascii.eqb_neq in N. rewrite N, C. reflexivity.
Qed.

(** *** Splitting and joining *)

Lemma Split_not_nil s sep : Split s sep <> [].
Proof.
  destruct s as [| c s]; cbn [Split]; [discriminate |].
  destruct (Ascii.eqb c sep); [discriminate |].
  destruct (Split s sep); discriminate.
Qed.

Lemma Split_whole s sep : Count s sep = 0 -> Split s sep = [s].
Proof.
  induction s as [| c s IH]; cbn [Split Count]; [reflexivity |].
  destruct (Ascii.eqb c sep); [discriminate |].
  intros C. rewrite IH by exact C. reflexivity.
Qed.

Lemma Split_append s sep rest :
  Count s sep = 0 -> Split (s ++ String sep rest) sep = s :: Split rest sep.
Proof.
  induction s as [| c s IH]; cbn [Split Count append].
  - intros _. rewrite Ascii.eqb_refl. reflexivity.
  - destruct (Ascii.eqb c sep); [discriminate |].
    intros C. rewrite IH by exact C. reflexivity.
Qed.

Lemma Split_Join ls sep :
  ls <> [] -> Forall (fun l => Count l sep = 0) ls -> Split (Join ls sep) sep = ls.
Proof.
  intros Hne F. induction F as [| x ls Hx F IH]; [contradiction |].
  destruct ls as [| y ls].
  - cbn [Join]. apply Split_whole, Hx.
  - change (Join (x :: y :: ls) sep) with (x ++ String sep (Join (y :: ls) sep)).
    rewrite Split_append by exact Hx. rewrite IH by discriminate. reflexivity.
Qed.

Lemma Split_pieces s sep c :
  Forall (fun l => Count l sep = 0 /\ Count l c <= Count s c) (Split s sep).
Proof.
  induction s as [| x s IH]; cbn [Split].
  - repeat constructor.
  - destruct (Ascii.eqb x sep) eqn:E.
    + constructor; [split; [reflexivity | cbn; lia] |].
      eapply Forall_impl; [| exact IH]. cbn [Count]. intros l [H1 H2]. split; [exact H1 | lia].
    + destruct (Split s sep) as [| h t]; [repeat constructor; cbn; rewrite ?E; lia |].
      inversion IH as [| ? ? [H1 H2] Ft]; subst. constructor.
      * cbn [Count]. rewrite E. split; [exact H1 | lia].
      * eapply Forall_impl; [| exact Ft]. cbn [Count]. intros l [H3 H4].
        split; [exact H3 | lia].
Qed.

(** *** Cleaning a cleaned line again *)

Lemma repeatByte_snoc c n :
  repeatByte c (S n) = repeatByte c n ++ String c EmptyString.
Proof. induction n as [| n IH]; [reflexivity |]. cbn [repeatByte append] in *. rewrite <- IH. reflexivity. Qed.

Lemma trimmed_hashes n : trimmed (repeatByte "#" (S n)).
Proof.
  split.
  - apply (starts_low space2 space3 space2_high space3_high); reflexivity.
  - rewrite repeatByte_snoc. apply ends_low; reflexivity.
Qed.

Lemma trimmed_after_low u x v :
  startsWS (u ++ String x v) = false -> high x = false ->
  trimmed v -> v <> EmptyString -> trimmed (u ++ String x v).
Proof.
  intros Hs L [_ Hv] Hne. split; [exact Hs |].
  rewrite ends_after_low by assumption. exact Hv.
Qed.

Lemma TrimSpace_space_first s : TrimSpace (String " " s) = TrimSpace s.
Proof. reflexivity. Qed.

Lemma TrimSpace_space_last s :
  trimmed s -> s <> EmptyString -> TrimSpace (s ++ " ") = s.
Proof.
  intros [Hs He] Hne. unfold TrimSpace.
  rewrite trimLeft_fixed.
  - rewrite trimRightSpace_eq, reverse_append.
    change (reverse " " ++ reverse s) with (String " " (reverse s)).
    cbn [stripSpaces asciiSpace]. change (asciiSpace " ") with true. cbv iota.
    rewrite strip_fixed by exact He. apply reverse_involutive.
  - unfold startsWS.
    rewrite (starts_before_low space2 space3 space2_high space3_high);
      [exact Hs | exact Hne | reflexivity].
Qed.

Lemma HasPrefix_cons c s p :
  HasPrefix (String c s) (String p EmptyString) = Ascii.eqb c p.
Proof. cbn [HasPrefix]. apply andb_true_r. Qed.

Section Again.
Variable mdOptions : MarkdownOptions.
Hypothesis no_shift : HeaderLevelAdjust mdOptions = 0%Z.

(** A heading without [#] in its title. *)
Lemma heading_again n title :
  (Z.of_nat (S n) < 2 ^ 63)%Z -> trimmed title -> Count title "#" = 0 ->
  let line' := repeatByte "#" (S n) ++ " " ++ title in
  TrimSpace line' <> EmptyString
  /\ HasPrefix (TrimSpace line') fence = false
  /\ rewriteLine mdOptions (TrimSpace line') = Some line'.
Proof.
  intros Hb Ht Hc line'.
  assert (W : forall m, m = S n ->
    Repeat "#" (wrapInt (Z.of_nat m + HeaderLevelAdjust mdOptions))
    = Some (repeatByte "#" (S n))).
  { intros m ->. rewrite no_shift, Z.add_0_r, wrapInt_small by (unfold inInt; lia).
    unfold Repeat. destruct (Z.ltb_spec (Z.of_nat (S n)) 0); [lia |].
    rewrite Nat2Z.id. reflexivity. }
  destruct (string_dec title EmptyString) as [-> | Hne].
  - assert (E : TrimSpace line' = repeatByte "#" (S n)).
    { apply TrimSpace_space_last; [apply trimmed_hashes | discriminate]. }
    rewrite E. split; [discriminate | split; [reflexivity |]].
    rewrite rewriteLine_heading by reflexivity.
    rewrite W by apply Count_repeatByte.
    rewrite <- (append_nil_r (repeatByte "#" (S n))) at 2.
    rewrite TrimLeft_repeatByte. reflexivity.
  - assert (E : TrimSpace line' = line').
    { apply TrimSpace_fixed. unfold line'.
      apply (trimmed_after_low (repeatByte "#" (S n)) " " title);
        [| reflexivity | exact Ht | exact Hne].
      apply (starts_low space2 space3 space2_high space3_high); reflexivity. }
    rewrite E. split; [discriminate | split; [reflexivity |]].
    rewrite rewriteLine_heading by reflexivity.
    rewrite W.
    + unfold line'. rewrite TrimLeft_repeatByte.
      cbn [append TrimLeft Ascii.eqb Bool.eqb].
      rewrite TrimSpace_space_first, (TrimSpace_fixed _ Ht). reflexivity.
    + unfold line'. rewrite Count_append, Count_repeatByte.
      cbn [append Count Ascii.eqb Bool.eqb]. rewrite Hc. lia.
Qed.

Lemma heading_first line :
  HasPrefix line "#" = true -> Count line "#" = leading line "#" ->
  (Z.of_nat (Count line "#") < 2 ^ 63)%Z ->
  exists n title,
    Count line "#" = S n /\ title = TrimSpace (TrimLeft line "#")
    /\ Count title "#" = 0
    /\ rewriteLine mdOptions line = Some (repeatByte "#" (S n) ++ " " ++ title).
Proof.
  intros Hp Hplain Hb.
  destruct (Count line "#") as [| n] eqn:C.
  { destruct line as [| c s]; [discriminate |].
    rewrite HasPrefix_cons in Hp. cbn [Count] in C. rewrite Hp in C. discriminate. }
  exists n, (TrimSpace (TrimLeft line "#")). split; [reflexivity | split; [reflexivity |]].
  split.
  - pose proof (Count_leading line "#") as CL.
    pose proof (Count_TrimSpace_le (TrimLeft line "#") "#"). lia.
  - rewrite rewriteLine_heading by exact Hp.
    rewrite C, no_shift, Z.add_0_r, wrapInt_small by (unfold inInt; lia).
    unfold Repeat. destruct (Z.ltb_spec (Z.of_nat (S n)) 0); [lia |].
    rewrite Nat2Z.id. reflexivity.
Qed.

(** A bullet. *)
Lemma bullet_rest_not_empty line c :
  trimmed line -> HasPrefix line (String c " ") = true ->
  TrimSpace (sliceFrom 2 line) <> EmptyString.
Proof.
  intros [_ He] Hp E.
  destruct line as [| x [| y rest]]; try discriminate.
  - cbn in Hp. rewrite andb_false_r in Hp. discriminate.
  - cbn [HasPrefix] in Hp. rewrite andb_true_r in Hp.
    apply andb_true_iff in Hp. destruct Hp as [_ Hy].
    apply Ascii.eqb_eq in Hy. subst y. cbn [sliceFrom] in E.
    destruct (TrimSpace_empty _ E) as [-> | Hr].
    + cbn in He. discriminate.
    + change (String x (String " " rest)) with ((String x " ") ++ rest) in He.
      rewrite (ends_append _ _ Hr) in He. discriminate.
Qed.

Lemma bullet_again rest :
  trimmed rest -> rest <> EmptyString ->
  let line' := "- " ++ rest in
  TrimSpace line' = line'
  /\ rewriteLine mdOptions line' = Some line'.
Proof.
  intros Ht Hne line'. split.
  - apply TrimSpace_fixed. unfold line'.
    apply (trimmed_after_low "-" " " rest); [| reflexivity | exact Ht | exact Hne].
    apply (starts_low space2 space3 space2_high space3_high); reflexivity.
  - unfold rewriteLine, line'. cbn [append HasPrefix Ascii.eqb Bool.eqb andb orb sliceFrom].
    rewrite (TrimSpace_fixed _ Ht). reflexivity.
Qed.
End Again.

Lemma isDigit_plain c :
  isDigit c = true ->
  high c = false /\ asciiSpace c = false
  /\ Ascii.eqb c "#" = false /\ Ascii.eqb c "*" = false
  /\ Ascii.eqb c "-" = false /\ Ascii.eqb c "`" = false
  /\ Ascii.eqb c "." = false.
Proof.
  unfold isDigit, high, asciiSpace. cbv zeta.
  rewrite andb_true_iff, !N.leb_le. intros [H1 H2].
  assert (D : forall x, (N_of_ascii x < 48 \/ 57 < N_of_ascii x)%N ->
                        Ascii.eqb c x = false).
  { intros x Hx. apply Ascii.eqb_neq. intros ->. lia. }
  repeat split;
    try (apply D; cbn; lia).
  - apply N.leb_gt. lia.
  - rewrite orb_false_iff, andb_false_iff, !N.leb_gt, N.eqb_neq. lia.
Qed.

Lemma reSpace_asciiSpace c : reSpace c = true -> asciiSpace c = true.
Proof.
  unfold reSpace, asciiSpace. cbv zeta.
  rewrite !orb_true_iff, andb_true_iff, !N.eqb_eq, !N.leb_le. lia.
Qed.

Lemma skipDigits_split s :
  exists ds, s = ds ++ skipDigits s /\ allDigits ds = true.
Proof.
  induction s as [| c s (ds & E & D)]; [exists EmptyString; split; reflexivity |].
  cbn [skipDigits]. destruct (isDigit c) eqn:Dc.
  - exists (String c ds). cbn [append allDigits]. rewrite <- E, Dc, D. split; reflexivity.
  - exists EmptyString. split; reflexivity.
Qed.

Lemma skipDigits_digits ds rest :
  allDigits ds = true -> skipDigits (ds ++ String "." rest) = String "." rest.
Proof.
  induction ds as [| c ds IH]; cbn [allDigits append skipDigits]; [reflexivity |].
  intros H. apply andb_true_iff in H. destruct H as [Dc D]. rewrite Dc. apply IH, D.
Qed.

Lemma cut_digits ds rest :
  allDigits ds = true -> cut (ds ++ String "." rest) "." = Some (ds, rest).
Proof.
  induction ds as [| c ds IH]; cbn [allDigits append cut]; [reflexivity |].
  intros H. apply andb_true_iff in H. destruct H as [Dc D].
  destruct (isDigit_plain c Dc) as (_ & _ & _ & _ & _ & _ & ->).
  rewrite IH by exact D. reflexivity.
Qed.

Lemma numbered_first mdOptions line :
  HasPrefix line "#" = false ->
  HasPrefix line "* " || HasPrefix line "- " = false ->
  matchNumbered line = true ->
  exists d ds p1,
    isDigit d = true /\ allDigits ds = true
    /\ line = String d ds ++ String "." p1
    /\ rewriteLine mdOptions line
       = Some (String d ds ++ "." ++ TrimSpace p1).
Proof.
  intros H1 H2 M. unfold rewriteLine. rewrite H1, H2, M.
  destruct line as [| d rest]; [discriminate |]. cbn [matchNumbered] in M.
  apply andb_true_iff in M. destruct M as [Dd M].
  destruct (skipDigits_split rest) as (ds & E & D).
  destruct (skipDigits rest) as [| dot [| w tail]] eqn:S1; try discriminate.
  apply andb_true_iff in M. destruct M as [Hdot _].
  apply Ascii.eqb_eq in Hdot. subst dot.
  exists d, ds, (String w tail). split; [exact Dd | split; [exact D |]].
  assert (C : cut (String d rest) "." = Some (String d ds, String w tail)).
  { rewrite E. change (String d (ds ++ String "." (String w tail)))
      with (String d ds ++ String "." (String w tail)).
    apply cut_digits. cbn [allDigits]. rewrite Dd, D. reflexivity. }
  unfold SplitN2. rewrite C. split; [| reflexivity].
  rewrite E at 1. reflexivity.
Qed.

Lemma numbered_again mdOptions d ds rest :
  isDigit d = true -> allDigits ds = true -> trimmed rest ->
  let line' := String d ds ++ "." ++ rest in
  TrimSpace line' = line'
  /\ HasPrefix line' fence = false
  /\ rewriteLine mdOptions line' = Some line'.
Proof.
  intros Dd D Ht line'.
  destruct (isDigit_plain d Dd) as (L & A & E1 & E2 & E3 & E4 & _).
  assert (St : startsWS line' = false)
    by (apply (starts_low space2 space3 space2_high space3_high); assumption).
  split; [| split].
  - apply TrimSpace_fixed. destruct (string_dec rest EmptyString) as [-> | Hne].
    + split; [exact St |]. apply ends_low; reflexivity.
    + apply (trimmed_after_low (String d ds) "." rest);
        [exact St | reflexivity | exact Ht | exact Hne].
  - unfold line'. cbn [append HasPrefix fence]. rewrite E4. reflexivity.
  - unfold rewriteLine, line'. cbn [append HasPrefix]. rewrite E1, E2, E3.
    cbn [andb orb]. cbn [matchNumbered]. rewrite Dd.
    rewrite skipDigits_digits by exact D. cbn [andb].
    destruct rest as [| w tail]; [reflexivity |].
    destruct (reSpace w) eqn:R; [| rewrite andb_false_r; reflexivity].
    exfalso. apply reSpace_asciiSpace in R. destruct Ht as [Hs _].
    unfold startsWS in Hs. cbn [startsSpace] in Hs. rewrite R in Hs. discriminate.
Qed.

(** Outside a code block, the line a trimmed line is rewritten to is, once
    trimmed itself, rewritten to itself, when a heading is not shifted and has
    no [#] in its title. *)
Lemma rewriteLine_again mdOptions line :
  trimmed line -> line <> EmptyString -> HasPrefix line fence = false ->
  (HasPrefix line "#" = true ->
   HeaderLevelAdjust mdOptions = 0%Z /\ Count line "#" = leading line "#") ->
  (Z.of_nat (Count line "#") < 2 ^ 63)%Z ->
  exists line',
    rewriteLine mdOptions line = Some line'
    /\ TrimSpace line' <> EmptyString
    /\ HasPrefix (TrimSpace line') fence = false
    /\ rewriteLine mdOptions (TrimSpace line') = Some line'
    /\ (Count line newline = 0 -> Count line' newline = 0).
Proof.
  intros Ht Hne Hf Hplain Hb.
  destruct (HasPrefix line "#") eqn:H1.
  { destruct (Hplain eq_refl) as [K Hlead].
    destruct (heading_first mdOptions K line H1 Hlead Hb)
      as (n & title & C & Et & Ct & R).
    exists (repeatByte "#" (S n) ++ " " ++ title). split; [exact R |].
    assert (Tt : trimmed title) by (rewrite Et; apply TrimSpace_trimmed).
    rewrite C in Hb.
    destruct (heading_again mdOptions K n title Hb Tt Ct) as (A1 & A2 & A3).
    repeat split; try assumption.
    intros N. rewrite Count_append, Count_repeatByte_other by reflexivity.
    pose proof (Count_TrimSpace_le (TrimLeft line "#") newline).
    pose proof (Count_TrimLeft_le line "#" newline).
    rewrite Et. unfold newline in *.
    cbn [append Count Ascii.eqb Bool.eqb]. lia. }
  destruct (HasPrefix line "* " || HasPrefix line "- ") eqn:H2.
  { assert (Rn : TrimSpace (sliceFrom 2 line) <> EmptyString).
    { apply orb_true_iff in H2. destruct H2 as [H2 | H2];
        eapply bullet_rest_not_empty; eassumption. }
    destruct (bullet_again mdOptions (TrimSpace (sliceFrom 2 line))
                (TrimSpace_trimmed _) Rn) as (B1 & B2).
    exists ("- " ++ TrimSpace (sliceFrom 2 line)).
    split; [unfold rewriteLine; rewrite H1, H2; reflexivity |].
    rewrite B1. repeat split; try assumption; try discriminate.
    intros N.
    pose proof (Count_TrimSpace_le (sliceFrom 2 line) newline).
    pose proof (Count_sliceFrom_le 2 line newline).
    unfold newline in *. cbn [append Count Ascii.eqb Bool.eqb]. lia. }
  destruct (matchNumbered line) eqn:H3.
  { destruct (numbered_first mdOptions line H1 H2 H3)
      as (d & ds & p1 & Dd & D & E & R).
    destruct (numbered_again mdOptions d ds (TrimSpace p1) Dd D
                (TrimSpace_trimmed _)) as (N1 & N2 & N3).
    exists (String d ds ++ "." ++ TrimSpace p1). split; [exact R |].
    rewrite N1. repeat split; try assumption; try discriminate.
    intros N. rewrite E in N. rewrite Count_append in N |- *.
    pose proof (Count_TrimSpace_le p1 newline).
    unfold newline in *. cbn [append Count Ascii.eqb Bool.eqb] in N |- *. lia. }
  exists line. split; [unfold rewriteLine; rewrite H1, H2, H3; reflexivity |].
  rewrite (TrimSpace_fixed _ Ht).
  split; [exact Hne | split; [exact Hf | split; [| exact (fun N => N)]]].
  unfold rewriteLine. rewrite H1, H2, H3. reflexivity.
Qed.

(** *** Cleaning twice *)

Lemma step_again mdOptions st raw :
  (HasPrefix (TrimSpace raw) fence = false -> inCodeBlock st = false ->
   plainHeading (HeaderLevelAdjust mdOptions) (TrimSpace raw) = true) ->
  (Z.of_nat (Count raw "#") < 2 ^ 63)%Z ->
  exists st',
    step mdOptions st raw = Some st'
    /\ inCodeBlock st' = nextFlag (inCodeBlock st) raw
    /\ ((st' = st /\ lastIsEmpty (result st) = true)
        \/ exists line',
             st' = push st line' (inCodeBlock st')
             /\ step mdOptions st line' = Some st'
             /\ (Count raw newline = 0 -> Count line' newline = 0)).
Proof.
  intros Hplain Hb. unfold nextFlag.
  pose proof (TrimSpace_trimmed raw) as Ht.
  pose proof (Count_TrimSpace_le raw newline) as Hnl.
  pose proof (Count_TrimSpace_le raw "#") as Hh.
  destruct (string_dec (TrimSpace raw) EmptyString) as [B | N].
  - rewrite B. cbn [HasPrefix fence]. destruct (lastIsEmpty (result st)) eqn:Hl.
    + exists st. rewrite (step_skip _ _ _ B Hl). auto.
    + exists (push st EmptyString (inCodeBlock st)).
      rewrite (step_blank _ _ _ B Hl). split; [reflexivity | split; [reflexivity |]].
      right. exists EmptyString. split; [reflexivity | split; [| reflexivity]].
      apply step_blank; [reflexivity | exact Hl].
  - destruct (HasPrefix (TrimSpace raw) fence) eqn:Hp.
    + exists (push st (TrimSpace raw) (negb (inCodeBlock st))).
      rewrite (step_fence _ _ _ _ eq_refl Hp).
      split; [reflexivity | split; [reflexivity |]].
      right. exists (TrimSpace raw). split; [reflexivity | split; [| lia]].
      apply step_fence; [apply TrimSpace_idempotent | exact Hp].
    + destruct (inCodeBlock st) eqn:Hf.
      * exists (push st (TrimSpace raw) true).
        rewrite (step_inside _ _ _ _ eq_refl N Hp Hf).
        split; [reflexivity | split; [reflexivity |]].
        right. exists (TrimSpace raw). split; [reflexivity | split; [| lia]].
        apply step_inside; [apply TrimSpace_idempotent | assumption ..].
      * rewrite (step_outside _ _ _ _ eq_refl N Hp Hf).
        destruct (rewriteLine_again mdOptions (TrimSpace raw) Ht N Hp)
          as (line' & R & A1 & A2 & A3 & A4).
        { intros H1. specialize (Hplain eq_refl eq_refl).
          unfold plainHeading in Hplain. rewrite H1 in Hplain.
          cbn [negb orb] in Hplain. apply andb_true_iff in Hplain.
          destruct Hplain as [K E]. split; [apply Z.eqb_eq, K | apply Nat.eqb_eq, E]. }
        { lia. }
        rewrite R. exists (push st line' false).
        split; [reflexivity | split; [reflexivity |]].
        right. exists line'. split; [reflexivity | split; [| lia]].
        rewrite (step_outside _ _ _ _ eq_refl A1 A2 Hf), A3. reflexivity.
Qed.

Lemma cleanupLoop_again mdOptions lines :
  Forall (fun raw => Count raw newline = 0
                     /\ (Z.of_nat (Count raw "#") < 2 ^ 63)%Z) lines ->
  forall st,
    headingsPlain (HeaderLevelAdjust mdOptions) (inCodeBlock st) lines = true ->
    exists st' outs,
      cleanupLoop mdOptions lines st = Some st'
      /\ result st' = (result st ++ outs)%list
      /\ cleanupLoop mdOptions outs st = Some st'
      /\ Forall (fun line => Count line newline = 0) outs
      /\ (lines <> [] -> lastIsEmpty (result st) = false -> outs <> []).
Proof.
  intros F. induction F as [| raw lines [Hnl Hb] _ IH]; intros st HP.
  - exists st, []. cbn [cleanupLoop]. rewrite app_nil_r.
    repeat split; auto.
  - cbn [headingsPlain] in HP. cbv zeta in HP.
    destruct (step_again mdOptions st raw) as (st1 & S1 & Fl & Cases).
    { intros Hp Hf. rewrite Hp, Hf in HP. cbn [orb] in HP.
      apply andb_true_iff in HP. apply HP. }
    { exact Hb. }
    assert (HP1 : headingsPlain (HeaderLevelAdjust mdOptions) (inCodeBlock st1)
                    lines = true).
    { rewrite Fl. unfold nextFlag.
      destruct (HasPrefix (TrimSpace raw) fence); [exact HP |].
      apply andb_true_iff in HP. apply HP. }
    destruct (IH st1 HP1) as (st' & outs & L1 & R1 & L2 & Fo & _).
    cbn [cleanupLoop]. rewrite S1.
    destruct Cases as [(-> & Hl) | (line' & E & S2 & Hn)].
    + exists st', outs. repeat split; try assumption.
      intros _ Hl'. rewrite Hl in Hl'. discriminate.
    + exists st', (line' :: outs). split; [exact L1 | split; [| split; [| split]]].
      * rewrite R1, E. cbn [push result]. rewrite <- app_assoc. reflexivity.
      * cbn [cleanupLoop]. rewrite S2. exact L2.
      * constructor; [apply Hn, Hnl | exact Fo].
      * intros _ _. discriminate.
Qed.

(** C6 (as stated it fails): with the default adjustment 1 every pass moves
    a heading one level down, so a second pass over a cleaned text, which has
    no bullet to unify and no blank run to collapse, changes it again. *)
Lemma cleanup_twice_shifts_twice :
  cleanupMarkdownText DefaultMarkdownOptions "# a" = Some "## a"
  /\ cleanupMarkdownText DefaultMarkdownOptions "## a" = Some "### a".
Proof. split; reflexivity. Qed.

(** C6 (amended): the cleanup is idempotent on every text, normalized or
    not, in which no line outside a code block starts with [#]; and, when the
    header levels are not adjusted ([HeaderLevelAdjust] is 0), on every text
    in which each heading line outside a code block has its [#] only in
    front.  On such a text the cleanup returns a text, and cleaning that text
    again returns it unchanged.  (The text is shorter than 2^63 bytes, as
    every Go string is.) *)
Theorem cleanup_idempotent_without_shift mdOptions text :
  (Z.of_nat (String.length text) < 2 ^ 63)%Z ->
  headingsPlain (HeaderLevelAdjust mdOptions) false (Split text newline) = true ->
  exists once,
    cleanupMarkdownText mdOptions text = Some once
    /\ cleanupMarkdownText mdOptions once = Some once.
Proof.
  intros Hlen HP.
  assert (F : Forall (fun raw => Count raw newline = 0
                        /\ (Z.of_nat (Count raw "#") < 2 ^ 63)%Z)
                (Split text newline)).
  { eapply Forall_impl; [| apply (Split_pieces text newline "#")].
    cbn beta. intros l [H1 H2]. split; [exact H1 |].
    pose proof (Count_le_length text "#"). lia. }
  destruct (cleanupLoop_again mdOptions _ F initState HP)
    as (st' & outs & L1 & R1 & L2 & Fo & Hne).
  cbn [initState result app] in R1.
  specialize (Hne (Split_not_nil text newline) eq_refl).
  exists (Join (result st') newline). unfold cleanupMarkdownText.
  rewrite L1. split; [reflexivity |].
  rewrite R1, Split_Join by assumption.
  rewrite L2, R1. reflexivity.
Qed.

Lemma cleanup_idempotent_without_shift_witness :
  exists once,
    cleanupMarkdownText noShift mixedSample = Some once
    /\ cleanupMarkdownText noShift once = Some once.
Proof.
  apply (cleanup_idempotent_without_shift noShift mixedSample);
    vm_compute; reflexivity.
Defined.

(** * Further properties *)

(** ** The cleanup: when it panics *)

Lemma rewriteLine_none mdOptions line :
  rewriteLine mdOptions line = None
  <-> negativeHeading (HeaderLevelAdjust mdOptions) line = true.
Proof.
  unfold rewriteLine, negativeHeading, Repeat.
  destruct (HasPrefix line "#"); cbn [andb].
  - destruct (wrapInt (Z.of_nat (Count line "#") + HeaderLevelAdjust mdOptions) <? 0)%Z;
      split; intros H; try reflexivity; discriminate.
  - split; [| discriminate].
    destruct (HasPrefix line "* " || HasPrefix line "- "); [discriminate |].
    destruct (matchNumbered line); [| discriminate].
    destruct (SplitN2 line ".") as [| p0 [| p1 [| ? ?]]]; discriminate.
Qed.

Lemma step_none mdOptions st raw :
  step mdOptions st raw = None
  <-> HasPrefix (TrimSpace raw) fence = false
      /\ inCodeBlock st = false
      /\ negativeHeading (HeaderLevelAdjust mdOptions) (TrimSpace raw) = true.
Proof.
  unfold step. cbv zeta.
  destruct (String.eqb_spec (TrimSpace raw) EmptyString) as [B | N].
  - rewrite B. cbn [andb HasPrefix fence negativeHeading].
    destruct (lastIsEmpty (result st)); cbn [andb];
      [split; [discriminate | intros (_ & _ & H); discriminate] |].
    destruct (inCodeBlock st); cbn [negb];
      (split; [discriminate | intros (_ & _ & H); discriminate]).
  - cbn [andb]. destruct (HasPrefix (TrimSpace raw) fence).
    + split; [discriminate | intros (H & _); discriminate].
    + destruct (inCodeBlock st); cbn [negb].
      * split; [discriminate | intros (_ & H & _); discriminate].
      * rewrite <- rewriteLine_none.
        destruct (rewriteLine mdOptions (TrimSpace raw)); split;
          try discriminate; try tauto.
        intros (_ & _ & H). discriminate.
Qed.

Lemma step_flag mdOptions st raw st' :
  step mdOptions st raw = Some st' ->
  inCodeBlock st' = nextFlag (inCodeBlock st) raw.
Proof.
  unfold step, nextFlag. cbv zeta.
  destruct (String.eqb_spec (TrimSpace raw) EmptyString) as [B | N].
  - rewrite B. cbn [HasPrefix fence andb].
    destruct (lastIsEmpty (result st)); cbn [andb].
    + intros E. injection E as <-. reflexivity.
    + destruct (inCodeBlock st); cbn [negb rewriteLine];
        intros E; injection E as <-; reflexivity.
  - cbn [andb]. destruct (HasPrefix (TrimSpace raw) fence).
    + intros E. injection E as <-. reflexivity.
    + destruct (inCodeBlock st) eqn:F; cbn [negb].
      * intros E. injection E as <-. reflexivity.
      * destruct (rewriteLine mdOptions (TrimSpace raw)); [| discriminate].
        intros E. injection E as <-. reflexivity.
Qed.

Lemma cleanupLoop_none mdOptions lines : forall st,
  cleanupLoop mdOptions lines st = None
  <-> hasNegativeHeading (HeaderLevelAdjust mdOptions) (inCodeBlock st) lines = true.
Proof.
  induction lines as [| raw lines IH]; intros st; cbn [cleanupLoop hasNegativeHeading].
  - split; discriminate.
  - cbv zeta. destruct (step mdOptions st raw) as [st1 |] eqn:S1.
    + rewrite IH, (step_flag _ _ _ _ S1). unfold nextFlag.
      destruct (HasPrefix (TrimSpace raw) fence) eqn:Hp; [reflexivity |].
      assert (Hn : negb (inCodeBlock st)
                   && negativeHeading (HeaderLevelAdjust mdOptions) (TrimSpace raw)
                   = false).
      { destruct (negb (inCodeBlock st)
                  && negativeHeading (HeaderLevelAdjust mdOptions) (TrimSpace raw))
          eqn:E; [| reflexivity].
        apply andb_true_iff in E. destruct E as [E1 E2].
        apply negb_true_iff in E1.
        assert (X : step mdOptions st raw = None) by (apply step_none; auto).
        rewrite X in S1. discriminate. }
      rewrite Hn. reflexivity.
    + apply step_none in S1. destruct S1 as (Hp & Hf & Hn).
      rewrite Hp, Hf, Hn. split; reflexivity.
Qed.

(** X1: the cleanup panics exactly when some line outside a code block starts
    with [#] and has a count of [#] that, added to [HeaderLevelAdjust], is
    negative; on every other text it returns a result. *)
Theorem cleanup_panics_iff mdOptions text :
  cleanupMarkdownText mdOptions text = None
  <-> hasNegativeHeading (HeaderLevelAdjust mdOptions) false (Split text newline)
      = true.
Proof.
  unfold cleanupMarkdownText. rewrite <- (cleanupLoop_none mdOptions _ initState).
  destruct (cleanupLoop mdOptions (Split text newline) initState);
    split; intros H; try reflexivity; discriminate.
Qed.

Lemma hasNegativeHeading_bounded k n lines :
  (0 <= k)%Z -> (Z.of_nat n + k < 2 ^ 63)%Z ->
  Forall (fun raw => Count raw "#" <= n) lines ->
  forall flag, hasNegativeHeading k flag lines = false.
Proof.
  intros Hk Hn F. induction F as [| raw lines Hc _ IH]; intros flag; [reflexivity |].
  cbn [hasNegativeHeading]. cbv zeta.
  destruct (HasPrefix (TrimSpace raw) fence); [apply IH |].
  rewrite IH, orb_false_r. unfold negativeHeading.
  pose proof (Count_TrimSpace_le raw "#") as Ht.
  rewrite wrapInt_small by (unfold inInt; lia).
  destruct (Z.ltb_spec (Z.of_nat (Count (TrimSpace raw) "#") + k) 0) as [L | _];
    [lia |].
  rewrite andb_false_r, andb_false_r. reflexivity.
Qed.

(** X2: with an adjustment that is not negative the cleanup never panics: it
    returns a text for every input (whose length plus the adjustment stays
    within an [int]). *)
Theorem cleanup_returns_when_not_negative mdOptions text :
  (0 <= HeaderLevelAdjust mdOptions)%Z ->
  (Z.of_nat (String.length text) + HeaderLevelAdjust mdOptions < 2 ^ 63)%Z ->
  exists out, cleanupMarkdownText mdOptions text = Some out.
Proof.
  intros Hk Hn.
  destruct (cleanupMarkdownText mdOptions text) as [out |] eqn:E;
    [exists out; reflexivity |].
  unfold cleanupMarkdownText in E.
  destruct (cleanupLoop mdOptions (Split text newline) initState) eqn:L;
    [discriminate |].
  apply cleanupLoop_none in L.
  rewrite (hasNegativeHeading_bounded _ (String.length text)) in L;
    [discriminate | exact Hk | exact Hn |].
  eapply Forall_impl; [| apply (Split_pieces text newline "#")].
  cbn beta. intros l [_ H]. pose proof (Count_le_length text "#"). lia.
Qed.

Lemma cleanup_returns_when_not_negative_witness :
  exists out, cleanupMarkdownText DefaultMarkdownOptions mixedSample = Some out.
Proof.
  apply (cleanup_returns_when_not_negative DefaultMarkdownOptions mixedSample);
    vm_compute; [discriminate | reflexivity].
Defined.

(** ** The cleanup: bullets and numbered items *)

Lemma bullet_shape line :
  HasPrefix line "* " || HasPrefix line "- " = true ->
  line <> EmptyString /\ HasPrefix line fence = false /\ HasPrefix line "#" = false.
Proof.
  destruct line as [| c rest]; [discriminate |].
  cbn [HasPrefix fence]. intros H. split; [discriminate |].
  destruct (Ascii.eqb_spec c "*") as [-> | N1].
  - split; reflexivity.
  - destruct (Ascii.eqb_spec c "-") as [-> | N2]; [split; reflexivity |].
    cbn [andb orb] in H. discriminate.
Qed.

(** X3: outside a code block a line that starts, once trimmed, with [* ] or
    [- ] comes out as [- ] followed by the rest trimmed, whichever marker it
    had; that rest is never empty, the emitted line has no white space left
    at either end, and the loop leaves the emitted line as it is when it
    meets it again. *)
Theorem bullet_is_unified mdOptions st raw :
  inCodeBlock st = false ->
  HasPrefix (TrimSpace raw) "* " || HasPrefix (TrimSpace raw) "- " = true ->
  let item := TrimSpace (sliceFrom 2 (TrimSpace raw)) in
  item <> EmptyString
  /\ step mdOptions st raw = Some (push st ("- " ++ item) false)
  /\ TrimSpace ("- " ++ item) = "- " ++ item
  /\ step mdOptions st ("- " ++ item) = Some (push st ("- " ++ item) false).
Proof.
  intros Hf Hb item.
  destruct (bullet_shape _ Hb) as (Hne & Hp & Hh).
  assert (Hi : item <> EmptyString).
  { apply orb_true_iff in Hb. destruct Hb as [Hb | Hb];
      eapply bullet_rest_not_empty; try eassumption; apply TrimSpace_trimmed. }
  destruct (bullet_again mdOptions item (TrimSpace_trimmed _) Hi) as (B1 & B2).
  split; [exact Hi | split; [| split; [exact B1 |]]].
  - rewrite (step_outside _ _ _ _ eq_refl Hne Hp Hf).
    unfold rewriteLine. rewrite Hh, Hb. reflexivity.
  - rewrite (step_outside _ _ _ _ B1) by first [discriminate | reflexivity | assumption].
    rewrite B2. reflexivity.
Qed.

Lemma bullet_is_unified_witness :
  "one" <> EmptyString
  /\ step DefaultMarkdownOptions initState "  *   one "
     = Some (push initState "- one" false)
  /\ TrimSpace "- one" = "- one"
  /\ step DefaultMarkdownOptions initState "- one"
     = Some (push initState "- one" false).
Proof.
  apply (bullet_is_unified DefaultMarkdownOptions initState "  *   one ");
    reflexivity.
Defined.

Lemma numbered_shape line :
  matchNumbered line = true ->
  line <> EmptyString /\ HasPrefix line fence = false
  /\ HasPrefix line "#" = false
  /\ HasPrefix line "* " || HasPrefix line "- " = false.
Proof.
  destruct line as [| d rest]; [discriminate |].
  cbn [matchNumbered]. intros H. apply andb_true_iff in H. destruct H as [Dd _].
  destruct (isDigit_plain d Dd) as (_ & _ & E1 & E2 & E3 & E4 & _).
  cbn [HasPrefix fence]. rewrite E1, E2, E3, E4. repeat split. discriminate.
Qed.

Lemma numbered_not_again d ds rest :
  isDigit d = true -> allDigits ds = true -> trimmed rest ->
  matchNumbered (String d ds ++ "." ++ rest) = false.
Proof.
  intros Dd D [Hs _]. cbn [append matchNumbered]. rewrite Dd.
  rewrite skipDigits_digits by exact D. cbn [andb].
  destruct rest as [| w tail]; [reflexivity |].
  destruct (reSpace w) eqn:R; [| apply andb_false_r].
  apply reSpace_asciiSpace in R.
  unfold startsWS in Hs. cbn [startsSpace] in Hs. rewrite R in Hs. discriminate.
Qed.

(** X4: outside a code block a line that matches the numbered pattern, once
    trimmed, is a number, a dot and a rest; it comes out as the number, the
    dot and the rest trimmed, with nothing between the dot and the rest, so
    the emitted line does not match the numbered pattern any more. *)
Theorem numbered_item_is_glued mdOptions st raw :
  inCodeBlock st = false ->
  matchNumbered (TrimSpace raw) = true ->
  exists number rest,
    TrimSpace raw = number ++ "." ++ rest
    /\ number <> EmptyString /\ allDigits number = true
    /\ step mdOptions st raw
       = Some (push st (number ++ "." ++ TrimSpace rest) false)
    /\ matchNumbered (number ++ "." ++ TrimSpace rest) = false.
Proof.
  intros Hf M.
  destruct (numbered_shape _ M) as (Hne & Hp & H1 & H2).
  destruct (numbered_first mdOptions _ H1 H2 M) as (d & ds & p1 & Dd & D & E & R).
  exists (String d ds), p1. split; [exact E | split; [discriminate | split]].
  - cbn [allDigits]. rewrite Dd, D. reflexivity.
  - split.
    + rewrite (step_outside _ _ _ _ eq_refl Hne Hp Hf), R. reflexivity.
    + apply numbered_not_again; [exact Dd | exact D | apply TrimSpace_trimmed].
Qed.

Lemma numbered_item_is_glued_witness :
  exists number rest,
    TrimSpace " 12.   twelfth " = number ++ "." ++ rest
    /\ number <> EmptyString /\ allDigits number = true
    /\ step DefaultMarkdownOptions initState " 12.   twelfth "
       = Some (push initState (number ++ "." ++ TrimSpace rest) false)
    /\ matchNumbered (number ++ "." ++ TrimSpace rest) = false.
Proof.
  apply (numbered_item_is_glued DefaultMarkdownOptions initState " 12.   twelfth ");
    reflexivity.
Defined.

(** ** The cleanup: the lines of the result *)

Lemma rewriteLine_no_newline mdOptions line line' :
  rewriteLine mdOptions line = Some line' ->
  Count line newline = 0 -> Count line' newline = 0.
Proof.
  unfold rewriteLine, Repeat. intros R N.
  destruct (HasPrefix line "#").
  - destruct (wrapInt (Z.of_nat (Count line "#") + HeaderLevelAdjust mdOptions) <? 0)%Z;
      [discriminate |].
    injection R as <-.
    rewrite Count_append, Count_repeatByte_other by reflexivity.
    pose proof (Count_TrimSpace_le (TrimLeft line "#") newline).
    pose proof (Count_TrimLeft_le line "#" newline).
    unfold newline in *. cbn [append Count Ascii.eqb Bool.eqb]. lia.
  - destruct (HasPrefix line "* " || HasPrefix line "- ").
    + assert (E : line' = "- " ++ TrimSpace (sliceFrom 2 line)) by congruence.
      rewrite E.
      pose proof (Count_TrimSpace_le (sliceFrom 2 line) newline).
      pose proof (Count_sliceFrom_le 2 line newline).
      set (item := TrimSpace (sliceFrom 2 line)) in *.
      unfold newline in *. cbn [append Count Ascii.eqb Bool.eqb]. lia.
    + destruct (matchNumbered line); [| injection R as <-; exact N].
      unfold SplitN2 in R. destruct (cut line ".") as [[p0 p1] |] eqn:C;
        [| injection R as <-; exact N].
      injection R as <-. apply cut_some in C. destruct C as [E _].
      rewrite E in N. rewrite Count_append in N |- *.
      pose proof (Count_TrimSpace_le p1 newline).
      unfold newline in *. cbn [append Count Ascii.eqb Bool.eqb] in N |- *. lia.
Qed.

Lemma step_pushes mdOptions st raw st' :
  step mdOptions st raw = Some st' ->
  (st' = st /\ lastIsEmpty (result st) = true)
  \/ exists line',
       result st' = (result st ++ [line'])%list
       /\ (Count raw newline = 0 -> Count line' newline = 0).
Proof.
  unfold step. cbv zeta.
  pose proof (Count_TrimSpace_le raw newline) as Ht.
  destruct (String.eqb (TrimSpace raw) EmptyString && lastIsEmpty (result st)) eqn:Sk.
  - intros E. injection E as <-. left. split; [reflexivity |].
    apply andb_true_iff in Sk. apply Sk.
  - right. destruct (HasPrefix (TrimSpace raw) fence).
    + injection H as <-. exists (TrimSpace raw). split; [reflexivity | lia].
    + destruct (negb (inCodeBlock st)).
      * destruct (rewriteLine mdOptions (TrimSpace raw)) as [line' |] eqn:R;
          [| discriminate].
        injection H as <-. exists line'. split; [reflexivity |].
        intros N. eapply rewriteLine_no_newline; [exact R | lia].
      * injection H as <-. exists (TrimSpace raw). split; [reflexivity | lia].
Qed.

Lemma cleanupLoop_lines mdOptions lines : forall st st',
  cleanupLoop mdOptions lines st = Some st' ->
  Forall (fun raw => Count raw newline = 0) lines ->
  exists outs,
    result st' = (result st ++ outs)%list
    /\ Forall (fun line => Count line newline = 0) outs
    /\ List.length outs <= List.length lines
    /\ (lines <> [] -> lastIsEmpty (result st) = false -> outs <> []).
Proof.
  induction lines as [| raw lines IH]; intros st st' E F; cbn [cleanupLoop] in E.
  - injection E as <-. exists []. rewrite app_nil_r.
    repeat split; [constructor | reflexivity | intros H; contradiction].
  - destruct (step mdOptions st raw) as [st1 |] eqn:S1; [| discriminate].
    inversion F as [| ? ? Hn F']; subst.
    destruct (IH _ _ E F') as (outs & R & Fo & Len & _).
    destruct (step_pushes _ _ _ _ S1) as [(-> & Hl) | (line' & R1 & N1)].
    + exists outs. repeat split; try assumption; [cbn [List.length]; lia |].
      intros _ Hl'. rewrite Hl in Hl'. discriminate.
    + exists (line' :: outs). split; [| split; [| split]].
      * rewrite R, R1, <- app_assoc. reflexivity.
      * constructor; [apply N1, Hn | exact Fo].
      * cbn [List.length]. lia.
      * intros _ _. discriminate.
Qed.

(** X5: the text the cleanup returns has at least one line and at most as
    many lines as the input: every iteration appends one line or none, and no
    line it appends holds a line feed, so splitting the result gives back
    exactly the lines appended. *)
Theorem cleanup_never_adds_lines mdOptions text out :
  cleanupMarkdownText mdOptions text = Some out ->
  exists st,
    cleanupLoop mdOptions (Split text newline) initState = Some st
    /\ Split out newline = result st
    /\ 1 <= List.length (Split out newline)
    /\ List.length (Split out newline) <= List.length (Split text newline).
Proof.
  unfold cleanupMarkdownText.
  destruct (cleanupLoop mdOptions (Split text newline) initState) as [st |] eqn:L;
    [| discriminate].
  intros E. injection E as <-. exists st. split; [reflexivity |].
  destruct (cleanupLoop_lines _ _ _ _ L) as (outs & R & Fo & Len & Hne).
  { eapply Forall_impl; [| apply (Split_pieces text newline newline)].
    cbn beta. intros l [H _]. exact H. }
  cbn [initState result app] in R.
  specialize (Hne (Split_not_nil text newline) eq_refl).
  rewrite R, Split_Join by assumption.
  split; [reflexivity | split; [| exact Len]].
  destruct outs; [contradiction | cbn [List.length]; lia].
Qed.

Lemma cleanup_never_adds_lines_witness :
  exists st,
    cleanupLoop DefaultMarkdownOptions (Split fencedSample newline) initState
    = Some st
    /\ Split ("```" ++ nl ++ "x" ++ nl ++ nl ++ "# y" ++ nl ++ "```") newline
       = result st
    /\ 1 <= List.length
              (Split ("```" ++ nl ++ "x" ++ nl ++ nl ++ "# y" ++ nl ++ "```") newline)
    /\ List.length
         (Split ("```" ++ nl ++ "x" ++ nl ++ nl ++ "# y" ++ nl ++ "```") newline)
       <= List.length (Split fencedSample newline).
Proof.
  apply (cleanup_never_adds_lines DefaultMarkdownOptions fencedSample). reflexivity.
Defined.

(** ** The cleanup: a fence that is never closed *)

Lemma cleanupLoop_flag mdOptions lines : forall st st',
  cleanupLoop mdOptions lines st = Some st' ->
  inCodeBlock st' = xorb (inCodeBlock st) (Nat.odd (fenceCount lines)).
Proof.
  induction lines as [| raw lines IH]; intros st st' E; cbn [cleanupLoop] in E.
  - injection E as <-. cbn. rewrite xorb_false_r. reflexivity.
  - destruct (step mdOptions st raw) as [st1 |] eqn:S1; [| discriminate].
    rewrite (IH _ _ E), (step_flag _ _ _ _ S1). unfold nextFlag, fenceCount.
    cbn [filter]. destruct (HasPrefix (TrimSpace raw) fence); [| reflexivity].
    cbn [List.length]. rewrite Nat.odd_succ, <- Nat.negb_odd.
    destruct (inCodeBlock st), (Nat.odd _); reflexivity.
Qed.

Lemma cleanupLoop_inside mdOptions body : forall st,
  inCodeBlock st = true ->
  Forall (fun raw => HasPrefix (TrimSpace raw) fence = false) body ->
  cleanupLoop mdOptions body st = Some (fold_left keepInside body st).
Proof.
  induction body as [| raw body IH]; intros st Hf F; [reflexivity |].
  inversion F as [| ? ? Hp F']; subst. cbn [cleanupLoop fold_left].
  assert (E : step mdOptions st raw = Some (keepInside st raw)).
  { unfold step, keepInside. cbv zeta. rewrite Hp, Hf.
    destruct (String.eqb (TrimSpace raw) EmptyString && lastIsEmpty (result st));
      reflexivity. }
  rewrite E. apply IH; [apply keepInside_inCodeBlock, Hf | exact F'].
Qed.

(** X6: a fence that is never closed is no error.  Whether the loop is
    inside a code block depends only on the number of fence lines met, not on
    the lines dropped; after an odd number of them every later line, as long
    as no fence line comes, is only trimmed (and dropped when empty after an
    empty line), never rewritten, and the cleanup does not panic on it
    whatever the adjustment. *)
Theorem unclosed_fence_passes_through mdOptions before body st1 :
  cleanupLoop mdOptions before initState = Some st1 ->
  Nat.odd (fenceCount before) = true ->
  Forall (fun raw => HasPrefix (TrimSpace raw) fence = false) body ->
  inCodeBlock st1 = true
  /\ cleanupLoop mdOptions (before ++ body) initState
     = Some (fold_left keepInside body st1)
  /\ inCodeBlock (fold_left keepInside body st1) = true.
Proof.
  intros E Odd F.
  assert (Hf : inCodeBlock st1 = true).
  { rewrite (cleanupLoop_flag _ _ _ _ E), Odd. reflexivity. }
  split; [exact Hf | split].
  - rewrite cleanupLoop_app, E. apply cleanupLoop_inside; assumption.
  - clear F. revert st1 E Hf. induction body as [| raw body IH]; intros st1 _ Hf;
      [exact Hf |].
    cbn [fold_left].
    assert (G : forall st, inCodeBlock st = true ->
                           inCodeBlock (fold_left keepInside body st) = true).
    { clear. induction body as [| r b IHb]; intros st H; [exact H |].
      apply IHb, keepInside_inCodeBlock, H. }
    apply G, keepInside_inCodeBlock, Hf.
Qed.

Lemma unclosed_fence_passes_through_witness :
  inCodeBlock {| result := ["a"; "```"]; inCodeBlock := true |} = true
  /\ cleanupLoop (defaultsWith (-9)) (["a"; "```"] ++ ["  # x"; "- y "]) initState
     = Some {| result := ["a"; "```"; "# x"; "- y"]; inCodeBlock := true |}
  /\ inCodeBlock {| result := ["a"; "```"; "# x"; "- y"]; inCodeBlock := true |}
     = true.
Proof.
  apply (unclosed_fence_passes_through (defaultsWith (-9)) ["a"; "```"]
           ["  # x"; "- y "] {| result := ["a"; "```"]; inCodeBlock := true |});
    [reflexivity | reflexivity | repeat constructor].
Defined.

(** ** The cleanup: white space at the ends of the lines *)

Lemma rewriteLine_trimmed mdOptions line :
  trimmed line -> line <> EmptyString -> HasPrefix line "#" = false ->
  exists line', rewriteLine mdOptions line = Some line' /\ TrimSpace line' = line'.
Proof.
  intros Ht Hne H1.
  destruct (HasPrefix line "* " || HasPrefix line "- ") eqn:H2.
  { assert (Rn : TrimSpace (sliceFrom 2 line) <> EmptyString).
    { apply orb_true_iff in H2. destruct H2 as [H2 | H2];
        eapply bullet_rest_not_empty; eassumption. }
    destruct (bullet_again mdOptions _ (TrimSpace_trimmed _) Rn) as (B1 & _).
    exists ("- " ++ TrimSpace (sliceFrom 2 line)).
    split; [unfold rewriteLine; rewrite H1, H2; reflexivity | exact B1]. }
  destruct (matchNumbered line) eqn:H3.
  { destruct (numbered_first mdOptions line H1 H2 H3)
      as (d & ds & p1 & Dd & D & E & R).
    destruct (numbered_again mdOptions d ds (TrimSpace p1) Dd D
                (TrimSpace_trimmed _)) as (N1 & _).
    exists (String d ds ++ "." ++ TrimSpace p1). split; [exact R | exact N1]. }
  exists line. split; [unfold rewriteLine; rewrite H1, H2, H3; reflexivity |].
  apply TrimSpace_fixed, Ht.
Qed.

Lemma step_trimmed mdOptions st raw :
  (HasPrefix (TrimSpace raw) fence = false -> inCodeBlock st = false ->
   HasPrefix (TrimSpace raw) "#" = false) ->
  exists st',
    step mdOptions st raw = Some st'
    /\ (st' = st
        \/ exists line', result st' = (result st ++ [line'])%list
                         /\ TrimSpace line' = line').
Proof.
  intros Hh. pose proof (TrimSpace_trimmed raw) as Ht.
  destruct (string_dec (TrimSpace raw) EmptyString) as [B | N].
  - destruct (lastIsEmpty (result st)) eqn:Hl.
    + exists st. rewrite (step_skip _ _ _ B Hl). auto.
    + eexists. rewrite (step_blank _ _ _ B Hl). split; [reflexivity |].
      right. exists EmptyString. split; reflexivity.
  - destruct (HasPrefix (TrimSpace raw) fence) eqn:Hp.
    + eexists. rewrite (step_fence _ _ _ _ eq_refl Hp). split; [reflexivity |].
      right. exists (TrimSpace raw). split; [reflexivity | apply TrimSpace_idempotent].
    + destruct (inCodeBlock st) eqn:Hf.
      * eexists. rewrite (step_inside _ _ _ _ eq_refl N Hp Hf).
        split; [reflexivity |]. right. exists (TrimSpace raw).
        split; [reflexivity | apply TrimSpace_idempotent].
      * destruct (rewriteLine_trimmed mdOptions _ Ht N (Hh eq_refl eq_refl))
          as (line' & R & T).
        eexists. rewrite (step_outside _ _ _ _ eq_refl N Hp Hf), R.
        split; [reflexivity |]. right. exists line'. split; [reflexivity | exact T].
Qed.

Lemma cleanupLoop_trimmed mdOptions lines : forall st,
  headingFree (inCodeBlock st) lines = true ->
  Forall (fun line => TrimSpace line = line) (result st) ->
  exists st',
    cleanupLoop mdOptions lines st = Some st'
    /\ Forall (fun line => TrimSpace line = line) (result st').
Proof.
  induction lines as [| raw lines IH]; intros st HF Inv.
  - exists st. split; [reflexivity | exact Inv].
  - cbn [headingFree] in HF. cbv zeta in HF.
    destruct (step_trimmed mdOptions st raw) as (st1 & S1 & Cases).
    { intros Hp Hf. rewrite Hp, Hf in HF. cbn [orb] in HF.
      apply andb_true_iff in HF. destruct HF as [HF _].
      apply negb_true_iff in HF. exact HF. }
    cbn [cleanupLoop]. rewrite S1. apply IH.
    + rewrite (step_flag _ _ _ _ S1). unfold nextFlag.
      destruct (HasPrefix (TrimSpace raw) fence); [exact HF |].
      apply andb_true_iff in HF. apply HF.
    + destruct Cases as [-> | (line' & R & T)]; [exact Inv |].
      rewrite R. apply Forall_app. split; [exact Inv | repeat constructor; exact T].
Qed.

(** X7: on a text in which no line outside a code block starts with [#], the
    cleanup returns a text whatever the adjustment, and no line of that text
    starts or ends with white space: trimming any line of the result leaves
    it as it is. *)
Theorem heading_free_result_is_trimmed mdOptions text :
  headingFree false (Split text newline) = true ->
  exists out,
    cleanupMarkdownText mdOptions text = Some out
    /\ Forall (fun line => TrimSpace line = line) (Split out newline).
Proof.
  intros HF.
  destruct (cleanupLoop_trimmed mdOptions _ initState HF (Forall_nil _))
    as (st & L & T).
  exists (Join (result st) newline). unfold cleanupMarkdownText. rewrite L.
  split; [reflexivity |].
  destruct (cleanupLoop_lines _ _ _ _ L) as (outs & R & Fo & _ & Hne).
  { eapply Forall_impl; [| apply (Split_pieces text newline newline)].
    cbn beta. intros l [H _]. exact H. }
  cbn [initState result app] in R.
  specialize (Hne (Split_not_nil text newline) eq_refl).
  rewrite R in T |- *. rewrite Split_Join by assumption. exact T.
Qed.

Lemma heading_free_result_is_trimmed_witness :
  exists out,
    cleanupMarkdownText (defaultsWith (-3))
      ("  * one  " ++ nl ++ "```" ++ nl ++ "  # in code " ++ nl ++ "```"
       ++ nl ++ " 3.  three ") = Some out
    /\ Forall (fun line => TrimSpace line = line) (Split out newline).
Proof.
  apply (heading_free_result_is_trimmed (defaultsWith (-3))). reflexivity.
Defined.

(** ** The rendering as a pass without state *)

Lemma rendered_unfold options node :
  rendered options node
  = (enteringCalls options node
     ++ flat_map (rendered options) (childrenOf node))%list.
Proof. destruct node; reflexivity. Qed.

Lemma state_eta st : {| pdf := pdf st; inCode := inCode st |} = st.
Proof. destruct st; reflexivity. Qed.

Lemma visit_entering options node st :
  inCode st = false ->
  visit options node true st
  = {| pdf := (pdf st ++ enteringCalls options node)%list; inCode := false |}.
Proof.
  destruct st as [ops flag]. cbn [inCode]. intros ->.
  destruct node; unfold visit, enteringCalls; cbn [negb];
    try destruct (Highlight options); try destruct (ColorLinks options);
    unfold call, setInCode; cbn [pdf inCode andb app];
    rewrite <- ?app_assoc, ?app_nil_r; reflexivity.
Qed.

Lemma walkList_rendered options cs :
  Forall (fun n => forall st, inCode st = false ->
            walk options n st
            = {| pdf := (pdf st ++ rendered options n)%list; inCode := false |}) cs ->
  forall st, inCode st = false ->
    walkList options cs st
    = {| pdf := (pdf st ++ flat_map (rendered options) cs)%list; inCode := false |}.
Proof.
  induction 1 as [| c cs Hc _ IH]; intros st Hf; cbn [walkList flat_map].
  - rewrite app_nil_r, <- Hf. symmetry. apply state_eta.
  - rewrite (Hc st Hf), IH by reflexivity. cbn [pdf].
    rewrite <- app_assoc. reflexivity.
Qed.

Lemma walk_rendered options node : forall st,
  inCode st = false ->
  walk options node st
  = {| pdf := (pdf st ++ rendered options node)%list; inCode := false |}.
Proof.
  induction node using Node_children_ind; intros st Hf;
    rewrite walk_unfold, H, rendered_unfold.
  - rewrite (visit_entering _ _ _ Hf).
    rewrite (walkList_rendered options _ H0) by reflexivity.
    cbn [visit negb pdf]. rewrite <- app_assoc. reflexivity.
  - rewrite (visit_entering _ _ _ Hf).
    destruct node; try discriminate; cbn [childrenOf flat_map];
      do 2 f_equal; symmetry; apply app_nil_r.
Qed.

Lemma processMarkdown_rendered options Parse handle content :
  fst (processMarkdown options Parse handle content)
  = (handle
     ++ OpSetFont (MainFont options) EmptyString (FontSize options)
        :: rendered options (Parse content))%list.
Proof.
  unfold processMarkdown. cbn [fst].
  rewrite walk_rendered by reflexivity. cbn [pdf call].
  rewrite <- app_assoc. reflexivity.
Qed.

(** X8: the flag [inCodeBlock] the walk captures is off at every visit (the
    code-block case sets it and clears it again before it returns), so the
    branches of the text case that test it never run: the calls
    [processMarkdown] makes are those of a pass over the tree in document
    order that keeps no state, after the calls already made on the handle and
    the first [SetFont]. *)
Theorem processMarkdown_keeps_no_state options Parse handle content :
  fst (processMarkdown options Parse handle content)
  = (handle
     ++ OpSetFont (MainFont options) EmptyString (FontSize options)
        :: rendered options (Parse content))%list
  /\ (forall node st,
        inCode st = false ->
        inCode (walk options node st) = false
        /\ pdf (walk options node st) = (pdf st ++ rendered options node)%list).
Proof.
  split; [apply processMarkdown_rendered |].
  intros node st Hf. rewrite (walk_rendered options node st Hf). split; reflexivity.
Qed.

Lemma walkList_rendered_all options cs st :
  inCode st = false ->
  walkList options cs st
  = {| pdf := (pdf st ++ flat_map (rendered options) cs)%list; inCode := false |}.
Proof.
  apply walkList_rendered. apply Forall_forall. intros n _. apply walk_rendered.
Qed.

(** ** The rendering: the texts and their order *)

Lemma drawn_app c ops1 ops2 :
  drawn c (ops1 ++ ops2) = (drawn c ops1 ++ drawn (textColor c ops1) ops2)%list.
Proof.
  revert c. induction ops1 as [| op ops1 IH]; intros c; [reflexivity |].
  destruct op; cbn [drawn textColor app]; rewrite IH; reflexivity.
Qed.

Lemma drawn_texts c c' ops : map fst (drawn c ops) = map fst (drawn c' ops).
Proof.
  revert c c'. induction ops as [| op ops IH]; intros c c'; [reflexivity |].
  destruct op; cbn [drawn map fst]; try apply IH; f_equal; apply IH.
Qed.

Lemma textsOf_unfold options c node :
  textsOf node
  = (map fst (drawn c (enteringCalls options node))
     ++ flat_map textsOf (childrenOf node))%list.
Proof.
  destruct node; cbn [textsOf enteringCalls childrenOf flat_map];
    try destruct (Highlight options); try destruct (ColorLinks options);
    reflexivity.
Qed.

Lemma rendered_texts options node : forall c,
  map fst (drawn c (rendered options node)) = textsOf node.
Proof.
  induction node using Node_children_ind; intros c;
    rewrite rendered_unfold, drawn_app, map_app, (textsOf_unfold options c).
  - f_equal. generalize (textColor c (enteringCalls options node)). intros c'.
    revert c'. induction H0 as [| n cs Hn _ IH]; intros c'; [reflexivity |].
    cbn [flat_map]. rewrite drawn_app, map_app, Hn. f_equal. apply IH.
  - destruct node; try discriminate; cbn [childrenOf flat_map];
      rewrite !app_nil_r; reflexivity.
Qed.

(** X9: the texts [processMarkdown] writes are, in this order and with none
    left out or written twice, the texts of the tree in document order: the
    literal of every [Text] and [CodeBlock] node and one bullet for every
    [ListItem]. *)
Theorem processMarkdown_writes_in_document_order options Parse handle content c :
  map fst (drawn c (fst (processMarkdown options Parse handle content)))
  = (map fst (drawn c handle) ++ textsOf (Parse content))%list.
Proof.
  rewrite processMarkdown_rendered, drawn_app, map_app. f_equal.
  cbn [drawn]. apply rendered_texts.
Qed.

(** ** The rendering: colours, fills and fonts *)

Lemma rendered_no_color options node :
  ColorLinks options = false \/ linkFree node = true ->
  Forall setsNoColor (rendered options node).
Proof.
  induction node using Node_children_ind; intros C; rewrite rendered_unfold;
    apply Forall_app; split.
  - destruct node; try discriminate; cbn [enteringCalls]; repeat constructor.
    destruct C as [-> | C]; [constructor | discriminate].
  - assert (Cs : ColorLinks options = false
                 \/ forallb linkFree (childrenOf node) = true).
    { destruct C as [C | C]; [left; exact C |].
      destruct node; try discriminate; right; exact C. }
    clear C H. induction H0 as [| n cs Hn _ IH]; [constructor |].
    cbn [flat_map]. apply Forall_app. split.
    + apply Hn. destruct Cs as [C | C]; [left; exact C | right].
      cbn [forallb] in C. apply andb_true_iff in C. apply C.
    + apply IH. destruct Cs as [C | C]; [left; exact C | right].
      cbn [forallb] in C. apply andb_true_iff in C. apply C.
  - destruct node; cbn [enteringCalls]; try discriminate; repeat constructor.
    destruct (Highlight options); repeat constructor.
  - destruct node; try discriminate; constructor.
Qed.

Lemma drawn_one_color ops : forall c,
  Forall setsNoColor ops ->
  drawn c ops = map (fun t => (t, c)) (map fst (drawn c ops))
  /\ textColor c ops = c.
Proof.
  induction ops as [| op ops IH]; intros c F; [split; reflexivity |].
  inversion F as [| ? ? Hop F']; subst.
  destruct (IH c F') as [E1 E2].
  destruct op; cbn [drawn textColor map fst]; try contradiction;
    (split; [| exact E2]); try exact E1; f_equal; exact E1.
Qed.

(** X10: when [ColorLinks] is off, or the tree holds no link,
    [processMarkdown] never changes the text colour: every text of the
    document is written in the colour the handle had. *)
Theorem text_color_kept_without_links options Parse handle content c :
  ColorLinks options = false \/ linkFree (Parse content) = true ->
  drawn c (fst (processMarkdown options Parse handle content))
  = (drawn c handle
     ++ map (fun t => (t, textColor c handle)) (textsOf (Parse content)))%list
  /\ textColor c (fst (processMarkdown options Parse handle content))
     = textColor c handle.
Proof.
  intros C. rewrite processMarkdown_rendered, drawn_app, textColor_app.
  cbn [drawn textColor].
  destruct (drawn_one_color _ (textColor c handle)
              (rendered_no_color options (Parse content) C)) as [E1 E2].
  rewrite E1, E2, rendered_texts. split; reflexivity.
Qed.

Lemma text_color_kept_without_links_witness :
  drawn black
    (fst (processMarkdown
            {| Margins := 20; FontSize := 11; MainFont := "Arial";
               MonoFont := "Courier"; PageSize := "A4"; ColorLinks := false;
               TOC := true; Highlight := true |}
            (fun _ => linkThenText) [] "[a](u)"))
  = (drawn black [] ++ map (fun t => (t, textColor black [])) (textsOf linkThenText))%list
  /\ textColor black
       (fst (processMarkdown
               {| Margins := 20; FontSize := 11; MainFont := "Arial";
                  MonoFont := "Courier"; PageSize := "A4"; ColorLinks := false;
                  TOC := true; Highlight := true |}
               (fun _ => linkThenText) [] "[a](u)"))
     = textColor black [].
Proof.
  apply (text_color_kept_without_links
           {| Margins := 20; FontSize := 11; MainFont := "Arial";
              MonoFont := "Courier"; PageSize := "A4"; ColorLinks := false;
              TOC := true; Highlight := true |}
           (fun _ => linkThenText) [] "[a](u)" black).
  left. reflexivity.
Defined.

Lemma filledCells_app ops1 ops2 :
  filledCells (ops1 ++ ops2) = (filledCells ops1 ++ filledCells ops2)%list.
Proof.
  induction ops1 as [| op ops1 IH]; [reflexivity |].
  destruct op as [| | ? ? ? ? ? [] | | |]; cbn [filledCells app]; rewrite IH; reflexivity.
Qed.

Lemma rendered_filled options node :
  filledCells (rendered options node)
  = if Highlight options then codeBlocksOf node else [].
Proof.
  induction node using Node_children_ind; rewrite rendered_unfold, filledCells_app.
  - assert (E : filledCells (enteringCalls options node) = []).
    { destruct node; try discriminate; cbn [enteringCalls];
        try destruct (ColorLinks options); reflexivity. }
    rewrite E. cbn [app].
    assert (U : codeBlocksOf node = flat_map codeBlocksOf (childrenOf node))
      by (destruct node; try discriminate; reflexivity).
    rewrite U. clear E U H. induction H0 as [| n cs Hn _ IH].
    + destruct (Highlight options); reflexivity.
    + cbn [flat_map]. rewrite filledCells_app, Hn, IH.
      destruct (Highlight options); reflexivity.
  - destruct node; try discriminate; cbn [enteringCalls childrenOf flat_map codeBlocksOf];
      destruct (Highlight options); reflexivity.
Qed.

(** X11: the cells [processMarkdown] draws with the fill on are exactly the
    code blocks of the tree, in document order, when [Highlight] is on, and
    none when it is off; the cell of a [Text] node is never filled. *)
Theorem filled_cells_are_code_blocks options Parse handle content :
  filledCells (fst (processMarkdown options Parse handle content))
  = (filledCells handle
     ++ if Highlight options then codeBlocksOf (Parse content) else [])%list.
Proof.
  rewrite processMarkdown_rendered, filledCells_app. f_equal.
  cbn [filledCells]. apply rendered_filled.
Qed.

Lemma written_app f ops1 ops2 :
  written f (ops1 ++ ops2)
  = (written f ops1 ++ written (fontAfter f ops1) ops2)%list.
Proof.
  revert f. induction ops1 as [| op ops1 IH]; intros f; [reflexivity |].
  destruct op; cbn [written fontAfter app]; rewrite IH; reflexivity.
Qed.

Lemma fontAfter_app f ops1 ops2 :
  fontAfter f (ops1 ++ ops2) = fontAfter (fontAfter f ops1) ops2.
Proof.
  revert f. induction ops1 as [| op ops1 IH]; intros f; [reflexivity |].
  destruct op; cbn [fontAfter app]; apply IH.
Qed.

Lemma rendered_font_free options node :
  fontFree node = true ->
  forall f,
    written f (rendered options node) = map (fun t => (t, f)) (textsOf node)
    /\ fontAfter f (rendered options node) = f.
Proof.
  induction node using Node_children_ind; intros FF f; rewrite rendered_unfold.
  - assert (Cs : forallb fontFree (childrenOf node) = true)
      by (destruct node; try discriminate; exact FF).
    assert (E : written f (enteringCalls options node)
                = map (fun t => (t, f))
                    (map fst (drawn black (enteringCalls options node)))
                /\ fontAfter f (enteringCalls options node) = f).
    { destruct node; try discriminate; cbn [enteringCalls];
        try destruct (ColorLinks options); split; reflexivity. }
    destruct E as [E1 E2].
    rewrite written_app, fontAfter_app, E1, E2,
      (textsOf_unfold options black node), map_app.
    clear E1 E2 FF H.
    assert (G : written f (flat_map (rendered options) (childrenOf node))
                = map (fun t => (t, f)) (flat_map textsOf (childrenOf node))
                /\ fontAfter f (flat_map (rendered options) (childrenOf node)) = f).
    { induction H0 as [| n cs Hn _ IH]; [split; reflexivity |].
      cbn [forallb] in Cs. apply andb_true_iff in Cs. destruct Cs as [Cn Cs].
      destruct (Hn Cn f) as [N1 N2]. destruct (IH Cs) as [I1 I2].
      cbn [flat_map]. rewrite written_app, fontAfter_app, N1, N2, I1, I2, map_app.
      split; reflexivity. }
    destruct G as [G1 G2]. rewrite G1, G2. split; reflexivity.
  - destruct node; try discriminate; split; reflexivity.
Qed.

Lemma rendered_list_font_free options cs :
  forallb fontFree cs = true ->
  forall f,
    written f (flat_map (rendered options) cs)
    = map (fun t => (t, f)) (flat_map textsOf cs)
    /\ fontAfter f (flat_map (rendered options) cs) = f.
Proof.
  induction cs as [| n cs IH]; intros Cs f; [split; reflexivity |].
  cbn [forallb] in Cs. apply andb_true_iff in Cs. destruct Cs as [Cn Cs].
  destruct (rendered_font_free options n Cn f) as [N1 N2].
  destruct (IH Cs f) as [I1 I2].
  cbn [flat_map]. rewrite written_app, fontAfter_app, N1, N2, I1, I2, map_app.
  split; reflexivity.
Qed.

Lemma walk_document options children st :
  inCode st = false ->
  pdf (walk options (Document children) st)
  = (pdf st ++ flat_map (rendered options) children)%list.
Proof.
  intros Hf. rewrite (walk_rendered _ _ _ Hf). reflexivity.
Qed.

Lemma walkList_pdf options cs st :
  inCode st = false ->
  pdf (walkList options cs st) = (pdf st ++ flat_map (rendered options) cs)%list.
Proof.
  intros Hf. rewrite (walkList_rendered_all _ _ _ Hf). reflexivity.
Qed.

(** X12: the font a heading sets is never set back.  Whatever stands before
    and after it in the document, the texts of a heading of level [Level]
    among the children of the document, and of the nodes that follow it as
    long as they hold no heading and no code block, are written in the main
    font, bold, at 16 - Level points; and the nodes after those, the next
    heading or code block first, are entered with that font in force. *)
Theorem heading_font_stays options before Level hs middle after st f :
  inCode st = false ->
  forallb fontFree hs = true ->
  forallb fontFree middle = true ->
  written f
    (pdf (walk options (Document (before ++ Heading Level hs :: middle ++ after)) st))
  = (written f (pdf (walkList options before st))
     ++ map (fun t => (t, (MainFont options, "B", (16 - inject_Z Level)%Q)))
          (flat_map textsOf hs ++ flat_map textsOf middle)
     ++ written (MainFont options, "B", (16 - inject_Z Level)%Q)
          (pdf (walkList options after {| pdf := []; inCode := false |})))%list.
Proof.
  intros Hf Ch Cm.
  rewrite (walk_document _ _ _ Hf), (walkList_pdf _ _ _ Hf),
    (walkList_pdf options after) by reflexivity.
  cbn [pdf app]. rewrite flat_map_app. cbn [flat_map]. rewrite flat_map_app.
  rewrite app_assoc, written_app. f_equal.
  set (hf := (MainFont options, "B", (16 - inject_Z Level)%Q)).
  generalize (fontAfter f (pdf st ++ flat_map (rendered options) before)).
  intros f1. rewrite rendered_unfold. cbn [enteringCalls childrenOf app written].
  fold hf.
  destruct (rendered_list_font_free options hs Ch hf) as [H1 H2].
  destruct (rendered_list_font_free options middle Cm hf) as [M1 M2].
  rewrite !written_app, H1, H2, M1, M2, map_app, <- app_assoc.
  reflexivity.
Qed.

Lemma heading_font_stays_witness :
  written ("Arial", EmptyString, 11%Q)
    (pdf (walk DefaultPDFOptions
            (Document ([CodeBlock "c"; Paragraph [Text "intro"]]
                       ++ Heading 2 [Text "h"]
                          :: [Paragraph [Text "p"]; List_ [ListItem [Text "i"]]]
                          ++ [Heading 1 [Text "next"]; Paragraph [Text "q"]]))
            {| pdf := []; inCode := false |}))
  = (written ("Arial", EmptyString, 11%Q)
       (pdf (walkList DefaultPDFOptions [CodeBlock "c"; Paragraph [Text "intro"]]
               {| pdf := []; inCode := false |}))
     ++ map (fun t => (t, ("Arial", "B", (16 - inject_Z 2)%Q)))
          (flat_map textsOf [Text "h"]
           ++ flat_map textsOf [Paragraph [Text "p"]; List_ [ListItem [Text "i"]]])
     ++ written ("Arial", "B", (16 - inject_Z 2)%Q)
          (pdf (walkList DefaultPDFOptions
                  [Heading 1 [Text "next"]; Paragraph [Text "q"]]
                  {| pdf := []; inCode := false |})))%list.
Proof.
  apply (heading_font_stays DefaultPDFOptions
           [CodeBlock "c"; Paragraph [Text "intro"]] 2 [Text "h"]
           [Paragraph [Text "p"]; List_ [ListItem [Text "i"]]]
           [Heading 1 [Text "next"]; Paragraph [Text "q"]]
           {| pdf := []; inCode := false |}); reflexivity.
Defined.

(** X13: a code block is written in the mono font at the base size, and
    after it the main font, regular, at the base size is set again, whatever
    font was in force before it.  Whatever stands before and after it in the
    document, the nodes that follow a code block among the children of the
    document, as long as they hold no heading and no code block, are written
    in the regular main font at the base size; and the nodes after those, the
    next heading or code block first, are entered with that font in force. *)
Theorem code_block_restores_font options before Literal middle after st f :
  inCode st = false ->
  forallb fontFree middle = true ->
  written f
    (pdf (walk options (Document (before ++ CodeBlock Literal :: middle ++ after)) st))
  = (written f (pdf (walkList options before st))
     ++ (Literal, (MonoFont options, EmptyString, FontSize options))
        :: map (fun t => (t, (MainFont options, EmptyString, FontSize options)))
             (flat_map textsOf middle)
     ++ written (MainFont options, EmptyString, FontSize options)
          (pdf (walkList options after {| pdf := []; inCode := false |})))%list.
Proof.
  intros Hf Cm.
  rewrite (walk_document _ _ _ Hf), (walkList_pdf _ _ _ Hf),
    (walkList_pdf options after) by reflexivity.
  cbn [pdf app]. rewrite flat_map_app. cbn [flat_map]. rewrite flat_map_app.
  rewrite app_assoc, written_app. f_equal.
  set (mf := (MainFont options, EmptyString, FontSize options)).
  generalize (fontAfter f (pdf st ++ flat_map (rendered options) before)).
  intros f1.
  destruct (rendered_list_font_free options middle Cm mf) as [M1 M2].
  rewrite rendered_unfold. cbn [enteringCalls childrenOf flat_map].
  rewrite app_nil_r.
  destruct (Highlight options); cbn [app written]; fold mf;
    rewrite written_app, M1, M2; reflexivity.
Qed.

Lemma code_block_restores_font_witness :
  written ("Arial", EmptyString, 11%Q)
    (pdf (walk DefaultPDFOptions
            (Document ([Heading 1 [Text "h"]]
                       ++ CodeBlock "c"
                          :: [Paragraph [Text "p"]]
                          ++ [CodeBlock "d"; Paragraph [Text "q"]]))
            {| pdf := []; inCode := false |}))
  = (written ("Arial", EmptyString, 11%Q)
       (pdf (walkList DefaultPDFOptions [Heading 1 [Text "h"]]
               {| pdf := []; inCode := false |}))
     ++ ("c", ("Courier", EmptyString, 11%Q))
        :: map (fun t => (t, ("Arial", EmptyString, 11%Q)))
             (flat_map textsOf [Paragraph [Text "p"]])
     ++ written ("Arial", EmptyString, 11%Q)
          (pdf (walkList DefaultPDFOptions [CodeBlock "d"; Paragraph [Text "q"]]
                  {| pdf := []; inCode := false |})))%list.
Proof.
  apply (code_block_restores_font DefaultPDFOptions [Heading 1 [Text "h"]] "c"
           [Paragraph [Text "p"]] [CodeBlock "d"; Paragraph [Text "q"]]
           {| pdf := []; inCode := false |}); reflexivity.
Defined.

(** ** Paths: the title of a document *)

Lemma lastElement_elem rest : forall elem,
  exists stem, lastElement rest elem = stem ++ elem.
Proof.
  induction rest as [| c rest IH]; intros elem; cbn [lastElement].
  - exists EmptyString. reflexivity.
  - destruct (isPathSeparator c); [exists EmptyString; reflexivity |].
    destruct (IH (String c elem)) as (stem & E).
    exists (stem ++ String c EmptyString). rewrite E, append_assoc. reflexivity.
Qed.

Lemma extScan_in_lastElement rest : forall ext,
  extScan rest ext = EmptyString
  \/ exists stem, lastElement rest ext = stem ++ extScan rest ext.
Proof.
  induction rest as [| c rest IH]; intros ext; cbn [extScan lastElement];
    [left; reflexivity |].
  destruct (isPathSeparator c); [left; reflexivity |].
  destruct (Ascii.eqb c "."); [right; apply lastElement_elem | apply IH].
Qed.

Lemma extScan_no_separator rest ext :
  extScan rest ext <> EmptyString -> dropSeparators rest = rest.
Proof.
  destruct rest as [| c rest]; [reflexivity |]. cbn [extScan dropSeparators].
  destruct (isPathSeparator c); [intros H; contradiction | reflexivity].
Qed.

(** The extension is the end of the base name. *)
Lemma Base_ends_with_Ext path :
  Ext path = EmptyString \/ exists stem, Base path = stem ++ Ext path.
Proof.
  destruct (string_dec (Ext path) EmptyString) as [E | N]; [left; exact E |].
  right. unfold Ext in *. unfold Base.
  destruct path as [| c path']; [contradiction N; reflexivity |].
  rewrite (extScan_no_separator _ _ N).
  destruct (extScan_in_lastElement (reverse (String c path')) EmptyString)
    as [E | (stem & E)]; [contradiction |].
  exists stem. rewrite E.
  destruct (stem ++ extScan (reverse (String c path')) EmptyString) eqn:D;
    [| reflexivity].
  destruct stem; [cbn in D; contradiction | discriminate D].
Qed.

Lemma HasPrefix_append p s : HasPrefix (p ++ s) p = true.
Proof.
  induction p as [| c p IH]; [reflexivity |].
  cbn [append HasPrefix]. rewrite Ascii.eqb_refl. exact IH.
Qed.

Lemma sliceFrom_append p s : sliceFrom (String.length p) (p ++ s) = s.
Proof. induction p as [| c p IH]; [reflexivity | exact IH]. Qed.

Lemma length_reverse s : String.length (reverse s) = String.length s.
Proof.
  induction s as [| c s IH]; [reflexivity |].
  rewrite reverse_cons, length_append, IH. cbn. lia.
Qed.

Lemma HasSuffix_append s suffix : HasSuffix (s ++ suffix) suffix = true.
Proof. unfold HasSuffix. rewrite reverse_append. apply HasPrefix_append. Qed.

Lemma TrimSuffix_append s suffix : TrimSuffix (s ++ suffix) suffix = s.
Proof.
  unfold TrimSuffix. rewrite HasSuffix_append, reverse_append.
  rewrite <- (length_reverse suffix), sliceFrom_append. apply reverse_involutive.
Qed.

(** X14: the title every conversion and upload takes from a path, the base
    name with the extension trimmed off its end, is the base name without its
    last extension: title and extension put together give the base name back,
    for every path. *)
Theorem title_and_extension_make_base path :
  TrimSuffix (Base path) (Ext path) ++ Ext path = Base path.
Proof.
  destruct (Base_ends_with_Ext path) as [E | (stem & E)].
  - rewrite E. rewrite <- (append_nil_r (Base path)) at 1.
    rewrite TrimSuffix_append. apply append_nil_r.
  - rewrite E at 1. rewrite TrimSuffix_append. symmetry. exact E.
Qed.

(** ** [MarkdownToPDF]: what is written and when it fails *)

Lemma outputs_app calls1 calls2 :
  outputs (calls1 ++ calls2) = (outputs calls1 ++ outputs calls2)%list.
Proof.
  induction calls1 as [| call calls1 IH]; [reflexivity |].
  destruct call; cbn [outputs app]; rewrite IH; reflexivity.
Qed.

Lemma outputs_ops ops : outputs (map CallOp ops) = [].
Proof. induction ops as [| op ops IH]; [reflexivity | exact IH]. Qed.

(** X15: [MarkdownToPDF] fails before any call when the file cannot be read.
    When it is read, the only input that makes the processing fail is a
    [.yml] or [.yaml] file (in any ASCII case) whose content is not valid
    YAML: then nothing is written and the error is the YAML error.  In every
    other case, markdown and configuration files included, exactly one file
    is written, to the temporary directory joined with the title and [.pdf],
    and that path is returned unless the writing itself fails. *)
Theorem MarkdownToPDF_outcome options TempDir Parse yamlValid joinPath addFloat
    unicodeToLower readFile outputOk mdPath :
  let run :=
    MarkdownToPDF options TempDir Parse yamlValid joinPath addFloat
      unicodeToLower readFile outputOk mdPath in
  let pdfPath :=
    joinPath TempDir (TrimSuffix (Base mdPath) (Ext mdPath) ++ ".pdf") in
  match readFile with
  | None => run = ([], inl (Errorf "failed to read markdown"))
  | Some content =>
      if isYAMLExt (ToLower unicodeToLower (Ext mdPath)) && negb (yamlValid content)
      then outputs (fst run) = [] /\ snd run = inl (Errorf "failed to parse YAML")
      else outputs (fst run) = [pdfPath]
           /\ snd run = (if outputOk then inr pdfPath
                         else inl (Errorf "failed to create pdf"))
  end.
Proof.
  cbv zeta. destruct readFile as [content |]; [| reflexivity].
  unfold MarkdownToPDF.
  destruct (isYAMLExt (ToLower unicodeToLower (Ext mdPath))) eqn:Y; cbn [andb].
  - unfold processYAML. destruct (yamlValid content); cbn [negb fst snd].
    + rewrite !outputs_app, outputs_ops. split; reflexivity.
    + rewrite !outputs_app. split; reflexivity.
  - destruct (isConfigExt (ToLower unicodeToLower (Ext mdPath))).
    + unfold processConfig. cbn [fst snd].
      rewrite !outputs_app, outputs_ops. split; reflexivity.
    + cbn [processMarkdown fst snd]. rewrite !outputs_app, outputs_ops.
      split; reflexivity.
Qed.

(** ** The file type of an upload *)

Lemma extScan_suffix rest : forall ext,
  exists stem, revAppend rest ext = stem ++ extScan rest ext.
Proof.
  induction rest as [| c rest IH]; intros ext; cbn [extScan revAppend].
  - exists ext. symmetry. apply append_nil_r.
  - destruct (isPathSeparator c).
    + exists (revAppend rest (String c ext)). symmetry. apply append_nil_r.
    + destruct (Ascii.eqb_spec c ".") as [-> | N]; [| apply IH].
      exists (reverse rest). apply revAppend_append.
Qed.

Lemma Ext_suffix path : exists stem, path = stem ++ Ext path.
Proof.
  destruct (extScan_suffix (reverse path) EmptyString) as (stem & E).
  exists stem. unfold Ext. rewrite <- E. symmetry. apply reverse_involutive.
Qed.

Lemma isASCII_append a b : isASCII (a ++ b) = isASCII a && isASCII b.
Proof.
  induction a as [| c a IH]; [reflexivity |].
  cbn [append isASCII]. rewrite IH, andb_assoc. reflexivity.
Qed.

Lemma lowerASCII_append a b : lowerASCII (a ++ b) = lowerASCII a ++ lowerASCII b.
Proof.
  induction a as [| c a IH]; [reflexivity |].
  cbn [append lowerASCII]. rewrite IH. reflexivity.
Qed.

(** X16: every path of ASCII bytes that [isSupported] accepts is uploaded with
    the file type of its extension: [UploadFile], which looks at the end of
    the whole lowered path, and [isSupported], which looks at the lowered
    extension, agree, so that a dot and the file type give the lowered
    extension. *)
Theorem supported_path_has_the_type_of_its_extension unicodeToLower path :
  isASCII path = true ->
  isSupported unicodeToLower path = true ->
  "." ++ fileTypeString (uploadFileType unicodeToLower path)
  = ToLower unicodeToLower (Ext path).
Proof.
  intros A S. destruct (Ext_suffix path) as (stem & E).
  assert (A' : isASCII stem = true /\ isASCII (Ext path) = true).
  { rewrite E, isASCII_append in A. apply andb_true_iff in A. exact A. }
  destruct A' as [As Ae].
  unfold isSupported, uploadFileType, ToLower in *. cbv zeta in S.
  rewrite A, Ae in *. rewrite E at 1. rewrite lowerASCII_append.
  apply orb_true_iff in S. destruct S as [S | S]; apply String.eqb_eq in S;
    rewrite S.
  - unfold HasSuffix. rewrite reverse_append. reflexivity.
  - rewrite HasSuffix_append. reflexivity.
Qed.

Lemma supported_path_has_the_type_of_its_extension_witness :
  "." ++ fileTypeString (uploadFileType (fun s => s) "Books/Moby.Dick.EPUB")
  = ToLower (fun s => s) (Ext "Books/Moby.Dick.EPUB").
Proof.
  apply (supported_path_has_the_type_of_its_extension (fun s => s)
           "Books/Moby.Dick.EPUB"); reflexivity.
Defined.

(** ** [CleanupExcept]: what is removed *)

Section Cleanup.
Context {Device Regexp : Type}.
Variable session : Device -> string -> Device * SessionResult.
Variable Compile : string -> option Regexp.
Variable reMatchString : Regexp -> string -> bool.
Variable Dir : string.
Variable pattern : string.

Lemma loopCommand_incl listed listed' sent sent' entry :
  incl listed listed' -> incl sent sent' ->
  loopCommand Compile reMatchString Dir pattern listed sent entry ->
  loopCommand Compile reMatchString Dir pattern listed' sent' entry.
Proof.
  intros I J (path & P & [R | (content & H & M & E)]); exists path;
    (split; [apply I, P |]); [left; exact R | right].
  exists content. auto.
Qed.

Lemma RunCommand_recording device sent cmd :
  RunCommand (recording session) (device, sent) cmd
  = ((fst (session device cmd), (sent ++ [(cmd, snd (session device cmd))])%list),
     snd (RunCommand session device cmd)).
Proof.
  unfold RunCommand, recording. cbn [fst snd].
  destruct (session device cmd) as [device' [| | output]]; reflexivity.
Qed.

Lemma RunCommand_result device cmd :
  snd (RunCommand session device cmd)
  = match snd (session device cmd) with
    | NoSession => inl (Errorf "failed to create session")
    | CommandFailed => inl (Errorf "command failed")
    | CombinedOutput output => inr output
    end.
Proof.
  unfold RunCommand.
  destruct (session device cmd) as [device' [| | output]]; reflexivity.
Qed.

(** The loop only adds commands: reads of its paths, each removal after a
    read that does not match, and a removal after each such read. *)
Lemma cleanupPaths_sent paths : forall device sent,
  let sent' :=
    snd (fst (cleanupPaths (recording session) Compile reMatchString Dir
                pattern paths (device, sent))) in
  incl sent sent'
  /\ (forall entry, In entry sent' ->
        In entry sent
        \/ loopCommand Compile reMatchString Dir pattern paths sent' entry)
  /\ (forall metadataPath content,
        In (readCommand metadataPath, CombinedOutput content) sent' ->
        fst (MatchString Compile reMatchString pattern content) = false ->
        In (readCommand metadataPath, CombinedOutput content) sent
        \/ exists result, In (removeCommand Dir metadataPath, result) sent').
Proof.
  induction paths as [| path rest IH]; intros device sent; cbv zeta.
  - cbn [cleanupPaths fst snd]. split; [apply incl_refl | auto].
  - cbn [cleanupPaths]. rewrite RunCommand_recording, RunCommand_result.
    fold (readCommand path).
    set (read := session device (readCommand path)).
    set (sent1 := (sent ++ [(readCommand path, snd read)])%list).
    assert (I1 : incl sent sent1) by (apply incl_appl, incl_refl).
    assert (T : incl rest (path :: rest)) by (apply incl_tl, incl_refl).
    assert (N : (forall content, snd read = CombinedOutput content ->
                 fst (MatchString Compile reMatchString pattern content) = true) ->
              let sent' :=
                snd (fst (cleanupPaths (recording session) Compile reMatchString
                            Dir pattern rest (fst read, sent1))) in
              incl sent sent'
              /\ (forall entry, In entry sent' ->
                    In entry sent
                    \/ loopCommand Compile reMatchString Dir pattern
                         (path :: rest) sent' entry)
              /\ (forall metadataPath content,
                    In (readCommand metadataPath, CombinedOutput content) sent' ->
                    fst (MatchString Compile reMatchString pattern content) = false ->
                    In (readCommand metadataPath, CombinedOutput content) sent
                    \/ exists result,
                         In (removeCommand Dir metadataPath, result) sent')).
    { intros Y. cbv zeta.
      destruct (IH (fst read) sent1) as (I & K & C). cbv zeta in I, K, C.
      split; [eapply incl_tran; eassumption |]. split.
      - intros entry H. destruct (K entry H) as [H1 | H1].
        + apply in_app_or in H1.
          destruct H1 as [H1 | [<- | []]]; [left; exact H1 |].
          right. exists path. split; [left; reflexivity | left; reflexivity].
        + right. eapply loopCommand_incl; [exact T | apply incl_refl | exact H1].
      - intros path' content H M. destruct (C path' content H M) as [H1 | H1];
          [| right; exact H1].
        apply in_app_or in H1. destruct H1 as [H1 | [E | []]]; [left; exact H1 |].
        injection E as _ E. rewrite (Y content E) in M. discriminate. }
    destruct (snd read) as [| | content] eqn:R;
      [apply N; discriminate .. |].
    destruct (fst (MatchString Compile reMatchString pattern content)) eqn:M.
    { apply N. intros content' [= <-]. exact M. }
    clear N. unfold RemoveFile. rewrite RunCommand_recording, RunCommand_result.
    fold (removeCommand Dir path).
    set (removal := session (fst read) (removeCommand Dir path)).
    set (sent2 := (sent1 ++ [(removeCommand Dir path, snd removal)])%list).
    assert (I2 : incl sent1 sent2) by (apply incl_appl, incl_refl).
    assert (H0 : In (readCommand path, CombinedOutput content) sent2).
    { apply I2. apply in_or_app. right. left. reflexivity. }
    assert (H2 : In (removeCommand Dir path, snd removal) sent2).
    { apply in_or_app. right. left. reflexivity. }
    assert (L : forall sent', incl sent2 sent' ->
              (forall entry, In entry sent' ->
                 In entry sent2
                 \/ loopCommand Compile reMatchString Dir pattern rest sent' entry) ->
              forall entry, In entry sent' ->
                In entry sent
                \/ loopCommand Compile reMatchString Dir pattern (path :: rest)
                     sent' entry).
    { intros sent' I K entry H.
      destruct (K entry H) as [H1 | H1].
      - apply in_app_or in H1. destruct H1 as [H1 | [<- | []]].
        + apply in_app_or in H1.
          destruct H1 as [H1 | [<- | []]]; [left; exact H1 |].
          right. exists path. split; [left; reflexivity | left; reflexivity].
        + right. exists path. split; [left; reflexivity | right].
          exists content. auto.
      - right. eapply loopCommand_incl; [exact T | apply incl_refl | exact H1]. }
    assert (D : forall sent', incl sent2 sent' ->
              (forall metadataPath content,
                 In (readCommand metadataPath, CombinedOutput content) sent' ->
                 fst (MatchString Compile reMatchString pattern content) = false ->
                 In (readCommand metadataPath, CombinedOutput content) sent2
                 \/ exists result, In (removeCommand Dir metadataPath, result) sent') ->
              forall metadataPath content,
                In (readCommand metadataPath, CombinedOutput content) sent' ->
                fst (MatchString Compile reMatchString pattern content) = false ->
                In (readCommand metadataPath, CombinedOutput content) sent
                \/ exists result, In (removeCommand Dir metadataPath, result) sent').
    { intros sent' I C path' content' H M'.
      destruct (C path' content' H M') as [H1 | H1]; [| right; exact H1].
      apply in_app_or in H1. destruct H1 as [H1 | [E | []]].
      - apply in_app_or in H1. destruct H1 as [H1 | [E | []]]; [left; exact H1 |].
        right. exists (snd removal). apply I.
        unfold readCommand in E. injection E as E _. subst path'. exact H2.
      - unfold readCommand, removeCommand in E. discriminate E. }
    destruct (snd removal) as [| | output] eqn:R2; cbn [fst snd].
    1, 2: split; [eapply incl_tran; eassumption |]; split;
          [apply L; [apply incl_refl | auto]
          | apply D; [apply incl_refl | auto]].
    destruct (IH (fst removal) sent2) as (I & K & C). cbv zeta in I, K, C.
    split; [eapply incl_tran; [| exact I]; eapply incl_tran; eassumption |].
    split; [apply L | apply D]; assumption.
Qed.
End Cleanup.

Section CleanupCommand.
Context {Device Regexp : Type}.
Variable session : Device -> string -> Device * SessionResult.
Variable Compile : string -> option Regexp.
Variable reMatchString : Regexp -> string -> bool.
Variable Dir : string.
Variable pattern : string.

(** The commands of [CleanupExcept] on a tablet that was sent [sent] before. *)
Lemma CleanupExcept_sent device sent :
  let sent' :=
    snd (fst (CleanupExcept (recording session) Compile reMatchString Dir
                pattern (device, sent))) in
  incl sent sent'
  /\ (exists result, In (listCommand Dir, result) sent')
  /\ (forall entry, In entry sent' ->
        In entry sent
        \/ fst entry = listCommand Dir
        \/ exists output,
             In (listCommand Dir, CombinedOutput output) sent'
             /\ loopCommand Compile reMatchString Dir pattern
                  (Split (TrimSpace output) newline) sent' entry)
  /\ (forall metadataPath content,
        In (readCommand metadataPath, CombinedOutput content) sent' ->
        fst (MatchString Compile reMatchString pattern content) = false ->
        In (readCommand metadataPath, CombinedOutput content) sent
        \/ exists result, In (removeCommand Dir metadataPath, result) sent').
Proof.
  cbv zeta. unfold CleanupExcept.
  rewrite RunCommand_recording, RunCommand_result. fold (listCommand Dir).
  set (listing := session device (listCommand Dir)).
  set (sent1 := (sent ++ [(listCommand Dir, snd listing)])%list).
  assert (I1 : incl sent sent1) by (apply incl_appl, incl_refl).
  assert (H1 : In (listCommand Dir, snd listing) sent1).
  { apply in_or_app. right. left. reflexivity. }
  assert (F : forall entry, In entry sent1 ->
            In entry sent \/ fst entry = listCommand Dir).
  { intros entry H. apply in_app_or in H.
    destruct H as [H | [<- | []]]; [left; exact H | right; reflexivity]. }
  assert (G : forall metadataPath content,
            In (readCommand metadataPath, CombinedOutput content) sent1 ->
            In (readCommand metadataPath, CombinedOutput content) sent).
  { intros path content H. apply in_app_or in H.
    destruct H as [H | [E | []]]; [exact H |].
    unfold listCommand, readCommand in E. discriminate E. }
  destruct (snd listing) as [| | output] eqn:R; cbn [fst snd].
  1, 2: split; [exact I1 |]; split; [eexists; exact H1 |]; split;
        [intros entry H; destruct (F entry H); auto
        | intros path content H _; left; apply G, H].
  destruct (cleanupPaths_sent session Compile reMatchString Dir pattern
              (Split (TrimSpace output) newline) (fst listing) sent1)
    as (I & K & C).
  cbv zeta in I, K, C.
  split; [eapply incl_tran; eassumption |].
  split; [eexists; apply I, H1 |]. split.
  - intros entry H. destruct (K entry H) as [H2 | H2].
    + destruct (F entry H2); auto.
    + right. right. exists output. split; [apply I, H1 | exact H2].
  - intros path content H M. destruct (C path content H M) as [H2 | H2];
      [left; apply G, H2 | right; exact H2].
Qed.

(** X17: on any tablet and with any pattern, every command [CleanupExcept]
    sends is the listing, the read of a listed path, or the removal of a
    listed document whose metadata it has read and found not to match the
    pattern: no document is removed because its metadata could not be read,
    and none whose metadata was found to match. *)
Theorem cleanup_removes_only_unmatched_documents device cmd result :
  let sent := cleanupCommands session Compile reMatchString Dir pattern device in
  In (cmd, result) sent ->
  cmd = listCommand Dir
  \/ exists output metadataPath,
       In (listCommand Dir, CombinedOutput output) sent
       /\ In metadataPath (Split (TrimSpace output) newline)
       /\ (cmd = readCommand metadataPath
           \/ exists content,
                In (readCommand metadataPath, CombinedOutput content) sent
                /\ fst (MatchString Compile reMatchString pattern content) = false
                /\ cmd = removeCommand Dir metadataPath).
Proof.
  cbv zeta. unfold cleanupCommands. intros H.
  destruct (CleanupExcept_sent device []) as (_ & _ & K & _). cbv zeta in K.
  destruct (K _ H) as [[] | [E | (output & L & path & P & Q)]]; [left; exact E |].
  right. exists output, path. auto.
Qed.

(** X18: [CleanupExcept] sends the removal of every document whose metadata it
    has read and found not to match the pattern, whatever the tablet answers
    and even when it stops at a failed removal. *)
Theorem cleanup_removes_every_unmatched_document device metadataPath content :
  let sent := cleanupCommands session Compile reMatchString Dir pattern device in
  In (readCommand metadataPath, CombinedOutput content) sent ->
  fst (MatchString Compile reMatchString pattern content) = false ->
  exists result, In (removeCommand Dir metadataPath, result) sent.
Proof.
  cbv zeta. unfold cleanupCommands. intros H M.
  destruct (CleanupExcept_sent device []) as (_ & _ & _ & C). cbv zeta in C.
  destruct (C _ _ H M) as [[] | R]. exact R.
Qed.

(** X19: a pattern that does not compile preserves nothing: the error of
    [regexp.MatchString] is dropped, so every document whose metadata can be
    read is removed. *)
Theorem uncompilable_pattern_preserves_nothing device metadataPath content :
  let sent := cleanupCommands session Compile reMatchString Dir pattern device in
  Compile pattern = None ->
  In (readCommand metadataPath, CombinedOutput content) sent ->
  exists result, In (removeCommand Dir metadataPath, result) sent.
Proof.
  cbv zeta. unfold cleanupCommands. intros U H.
  destruct (CleanupExcept_sent device []) as (_ & _ & _ & C). cbv zeta in C.
  assert (M : fst (MatchString Compile reMatchString pattern content) = false).
  { unfold MatchString. rewrite U. reflexivity. }
  destruct (C _ _ H M) as [[] | R]. exact R.
Qed.

(** X20: when the cleanup command was asked to restart the interface and
    [CleanupExcept] fails, the interface has been stopped and is not started
    again: the handler returns before its restart. *)
Theorem failed_cleanup_leaves_xochitl_stopped device :
  let run :=
    cleanupHandler (recording session) Compile reMatchString Dir true pattern
      (Some (device, [])) in
  snd run = Some (Errorf "cleanup failed") ->
  exists left sent,
    fst run = Some (left, sent)
    /\ (exists output, In ("systemctl stop xochitl", CombinedOutput output) sent)
    /\ forall result, ~ In ("systemctl restart xochitl", result) sent.
Proof.
  cbv zeta. unfold cleanupHandler.
  destruct (String.eqb pattern EmptyString); [discriminate |].
  rewrite RunCommand_recording, RunCommand_result. cbn [app].
  set (stop := session device "systemctl stop xochitl").
  destruct (snd stop) as [| | output] eqn:R; [discriminate .. |].
  set (sent1 := [("systemctl stop xochitl", CombinedOutput output)]).
  pose proof (CleanupExcept_sent (fst stop) sent1) as (I & _ & K & _).
  cbv zeta in I, K. revert I K.
  destruct (CleanupExcept (recording session) Compile reMatchString Dir pattern _)
    as [[left sent] [err |]]; intros I K.
  - intros _. cbn [fst snd] in *. exists left, sent. split; [reflexivity |].
    split; [exists output; apply I; left; reflexivity |].
    intros result H. destruct (K _ H) as [H1 | [H1 | (out & _ & path & _ & H1)]].
    + destruct H1 as [H1 | []]. discriminate H1.
    + unfold listCommand in H1. discriminate H1.
    + cbn [fst] in H1. unfold readCommand, removeCommand in H1.
      destruct H1 as [H1 | (c & _ & _ & H1)]; discriminate H1.
  - rewrite RunCommand_recording, RunCommand_result.
    destruct (snd (session left "systemctl restart xochitl")); discriminate.
Qed.
End CleanupCommand.

Lemma cleanup_removes_only_unmatched_documents_witness :
  removeCommand "/docs" "/docs/abc.metadata" = listCommand "/docs"
  \/ exists output metadataPath,
       In (listCommand "/docs", CombinedOutput output)
         (cleanupCommands oneDocument noCompile noMatch "/docs" "Sheets" tt)
       /\ In metadataPath (Split (TrimSpace output) newline)
       /\ (removeCommand "/docs" "/docs/abc.metadata" = readCommand metadataPath
           \/ exists content,
                In (readCommand metadataPath, CombinedOutput content)
                  (cleanupCommands oneDocument noCompile noMatch "/docs" "Sheets" tt)
                /\ fst (MatchString noCompile noMatch "Sheets" content) = false
                /\ removeCommand "/docs" "/docs/abc.metadata"
                   = removeCommand "/docs" metadataPath).
Proof.
  apply (cleanup_removes_only_unmatched_documents oneDocument noCompile noMatch
           "/docs" "Sheets" tt _ (CombinedOutput EmptyString)).
  vm_compute. auto.
Defined.

Lemma cleanup_removes_every_unmatched_document_witness :
  exists result,
    In (removeCommand "/docs" "/docs/abc.metadata", result)
      (cleanupCommands oneDocument (fun _ => Some tt) noMatch "/docs" "Sheets" tt).
Proof.
  apply (cleanup_removes_every_unmatched_document oneDocument (fun _ => Some tt)
           noMatch "/docs" "Sheets" tt "/docs/abc.metadata" "visibleName: Notes").
  - vm_compute. auto.
  - reflexivity.
Defined.

Lemma uncompilable_pattern_preserves_nothing_witness :
  exists result,
    In (removeCommand "/docs" "/docs/abc.metadata", result)
      (cleanupCommands oneDocument noCompile noMatch "/docs" "(Notes" tt).
Proof.
  apply (uncompilable_pattern_preserves_nothing oneDocument noCompile noMatch
           "/docs" "(Notes" tt "/docs/abc.metadata" "visibleName: Notes").
  - reflexivity.
  - vm_compute. auto.
Defined.

Lemma failed_cleanup_leaves_xochitl_stopped_witness :
  exists left sent,
    fst (cleanupHandler (recording lockedTablet) noCompile noMatch "/docs" true
           "Sheets" (Some (tt, [])))
    = Some (left, sent)
    /\ (exists output, In ("systemctl stop xochitl", CombinedOutput output) sent)
    /\ forall result, ~ In ("systemctl restart xochitl", result) sent.
Proof.
  apply (failed_cleanup_leaves_xochitl_stopped lockedTablet noCompile noMatch
           "/docs" "Sheets" tt).
  reflexivity.
Defined.

(** ** Blank runs in the returned text *)














